(** * TrackEval dataset base class: a shallow embedding and its properties

    The development follows [hota_metrics/datasets/_base_dataset.py]:
    the text ingestion helper [_load_simple_text_file], the box overlap
    helper [_calculate_box_ious], the per-timestep identity check
    [_check_unique_ids] and the orchestrator [get_raw_seq_data].

    Python values are modelled as follows.
    - An exception is a value of [exn]; a call that may raise returns
      [res A].  Sequencing uses stdpp's monad notation.
    - A [dict] that is only looked up or merged is a [gmap]; a [dict]
      that is iterated with [.items()] is an association list in
      insertion order.
    - A row object read from the csv reader is identified by its position
      in reader order.  Buckets hold references (positions); a store maps
      each reference to the content of the row object, so that two
      appends of one row are two references to one object.
    - numpy [float64] arrays are lists of primitive binary64 floats. *)

From Stdlib Require Import ZArith Lia String Ascii Bool Floats.
From stdpp Require Import base option list sorting gmap strings pretty.

Local Open Scope string_scope.
Local Open Scope list_scope.
Local Open Scope Z_scope.

(** ** Python runtime: exceptions, indexing, strings *)

Module Py.

Inductive exn : Type :=
  | Exception (msg : string)   (* [raise Exception(msg)] in the source *)
  | IndexError
  | KeyError (key : string)
  | AttributeError
  | ValueError
  | OSError
  | CsvError.

Inductive res (A : Type) : Type :=
  | Ok (a : A)
  | Raise (e : exn).
Arguments Ok {A} a.
Arguments Raise {A} e.

Global Instance res_ret : MRet res := @Ok.
Global Instance res_bind : MBind res :=
  λ A B f m, match m with Ok a => f a | Raise e => Raise e end.

Global Instance res_fmap : FMap res :=
  λ A B f m, match m with Ok a => Ok (f a) | Raise e => Raise e end.

Definition is_ok {A} (r : res A) : bool :=
  match r with Ok _ => true | Raise _ => false end.

(** [for x in xs: s = body(s, x)] where the body may raise. *)
Fixpoint for_each {A S : Type} (body : S → A → res S) (s : S) (xs : list A) : res S :=
  match xs with
  | [] => Ok s
  | x :: xs' => s' ← body s x; for_each body s' xs'
  end.

(** Position of index [i] in a sequence of length [n]: Python accepts
    [0 <= i < n] and the negative indices [-n <= i < 0]. *)
Definition py_pos (n : nat) (i : Z) : option nat :=
  if decide (0 ≤ i < Z.of_nat n) then Some (Z.to_nat i)
  else if decide (- Z.of_nat n ≤ i < 0) then Some (Z.to_nat (Z.of_nat n + i))
  else None.

(** [l[i]] *)
Definition getitem {A} (l : list A) (i : Z) : res A :=
  match py_pos (length l) i ≫= (l !!.) with
  | Some x => Ok x
  | None => Raise IndexError
  end.

(** [l[i] = x] *)
Definition setitem {A} (l : list A) (i : Z) (x : A) : res (list A) :=
  match py_pos (length l) i with
  | Some k => Ok (<[k:=x]> l)
  | None => Raise IndexError
  end.

(** [l[:-1]] *)
Definition drop_last {A} (l : list A) : list A := take (length l - 1)%nat l.

(** [str.lower] on byte strings: the letters [A]-[Z] are mapped to
    [a]-[z], every other byte is left alone. *)
Definition lower_ascii (c : ascii) : ascii :=
  let n := nat_of_ascii c in
  if (65 <=? n)%nat && (n <=? 90)%nat then ascii_of_nat (n + 32) else c.

Fixpoint lower (s : string) : string :=
  match s with
  | EmptyString => EmptyString
  | String c s' => String (lower_ascii c) (lower s')
  end.

(** [a in b] for two strings: [a] occurs in [b] as a contiguous run. *)
Fixpoint str_in (a b : string) : bool :=
  String.prefix a b ||
  match b with
  | EmptyString => false
  | String _ b' => str_in a b'
  end.

(** What [a in b] means for two strings: [b] is [a] with something
    before and something after it. *)
Definition occurs_in (a b : string) : Prop :=
  ∃ before after, b = before +:+ a +:+ after.

(** A field of a row: text as read from the file, or an integer that a
    conversion table put in its place. *)
Inductive cell : Type :=
  | CStr (s : string)
  | CInt (n : Z).

Global Instance cell_eq_dec : EqDecision cell.
Proof. solve_decision. Defined.

(** [c.lower()]: only strings have the method. *)
Definition cell_lower (c : cell) : res string :=
  match c with
  | CStr s => Ok (lower s)
  | CInt _ => Raise AttributeError
  end.

End Py.
Export Py.

(** ** Text ingestion: [_load_simple_text_file] *)

Module TextFile.

(** [valid_filter] and [crowd_ignore_filter]: a dict from column to a list
    of accepted lowercase values, in [.items()] order. *)
Definition filter : Type := list (Z * list string).

(** [convert_filter]: a dict from column to a conversion table. *)
Definition convert : Type := list (Z * gmap string cell).

(** The keyword arguments of the call.  [file] and [force_delimiters] only
    decide what the reader yields; that is the [source] below. *)
Record args : Type := {
  time_col : Z;
  id_col : option Z;
  remove_negative_ids : bool;
  valid_filter : option filter;
  crowd_ignore_filter : option filter;
  convert_filter : option convert;
  is_zipped : bool;
  zip_file : option string }.

(** The defaults of the signature. *)
Definition default_args : args :=
  {| time_col := 0; id_col := None; remove_negative_ids := false;
     valid_filter := None; crowd_ignore_filter := None; convert_filter := None;
     is_zipped := false; zip_file := None |}.

(** The two dicts under construction.  [store] holds the row objects
    created so far, in reader order; the dicts hold references into it. *)
Record buckets : Type := {
  store : list (list cell);
  read_data : gmap string (list nat);
  crowd_ignore_data : gmap string (list nat) }.

Definition no_buckets : buckets :=
  {| store := []; read_data := ∅; crowd_ignore_data := ∅ |}.

(** What a caller sees under a key of a returned dict: the row objects
    the references point to. *)
Definition rows_at (st : buckets) (d : gmap string (list nat)) (timestep : string)
  : option (list (list cell)) :=
  match d !! timestep with
  | Some refs => Some (omap (λ r : nat, store st !! r) refs)
  | None => None
  end.

(** [[
    if timestep in d.keys(): d[timestep].append(row)
    else: d[timestep] = [row]
    ]] *)
Definition bucket_add (d : gmap string (list nat)) (timestep : string) (r : nat)
  : gmap string (list nat) :=
  match d !! timestep with
  | Some l => <[timestep := l ++ [r]]> d
  | None => <[timestep := [r]]> d
  end.

(** How many references to row object [r] the dict holds under [timestep]. *)
Definition count_refs (d : gmap string (list nat)) (timestep : string) (r : nat) : nat :=
  length (base.filter (r =.) (default [] (d !! timestep))).

(** A dict whose lists are not empty, are ordered by [R], and only hold
    references to the first [n] row objects. *)
Definition buckets_ok (R : relation nat) (n : nat) (d : gmap string (list nat)) : Prop :=
  ∀ timestep refs, d !! timestep = Some refs →
    refs ≠ [] ∧ StronglySorted R refs ∧ Forall (λ r, (r < n)%nat) refs.

(** [[
    if row[-1] in '': row = row[:-1]
    ]] *)
Definition strip_trailing (raw : list string) : res (list string) :=
  last ← getitem raw (-1);
  Ok (if str_in last "" then drop_last raw else raw).

(** [row[key].lower() in value] *)
Definition matches (row : list cell) (key : Z) (value : list string) : res bool :=
  c ← getitem row key;
  s ← cell_lower c;
  Ok (bool_decide (s ∈ value)).

(** The test above, for one entry of a filter, as a plain boolean: the
    entry matches when the test returns [True]. *)
Definition matches_entry (row : list cell) (entry : Z * list string) : bool :=
  match matches row entry.1 entry.2 with
  | Ok true => true
  | _ => false
  end.

(** The entries of a filter that a row matches, in [.items()] order. *)
Definition matching_entries (row : list cell) (f : filter) : list (Z * list string) :=
  List.filter (matches_entry row) f.

(** [[
    for convert_key, convert_value in convert_filter.items():
        row[convert_key] = convert_value[row[convert_key].lower()]
    ]] *)
Definition convert_step (row : list cell) (entry : Z * gmap string cell)
  : res (list cell) :=
  let '(convert_key, convert_value) := entry in
  c ← getitem row convert_key;
  s ← cell_lower c;
  match convert_value !! s with
  | Some v => setitem row convert_key v
  | None => Raise (KeyError s)
  end.

Definition convert_row (cf : convert) (row : list cell) : res (list cell) :=
  for_each convert_step row cf.

(** One turn of the loop over [crowd_ignore_filter.items()].  The loop
    state is the row object, the ignore dict and [is_ignored]. *)
Definition ignore_step (cf : convert) (timestep : string) (r : nat)
    (s : list cell * gmap string (list nat) * bool) (entry : Z * list string)
  : res (list cell * gmap string (list nat) * bool) :=
  let '(row, ign, is_ignored) := s in
  let '(ignore_key, ignore_value) := entry in
  m ← matches row ignore_key ignore_value;
  if m : bool then
    row' ← convert_row cf row;
    Ok (row', bucket_add ign timestep r, true)
  else Ok (row, ign, is_ignored).

(** One turn of the loop over [valid_filter.items()]: the [continue]
    belongs to this inner loop, so both branches go on to the next entry. *)
Definition valid_step (row : list cell) (_ : unit) (entry : Z * list string) : res unit :=
  let '(key, value) := entry in
  m ← matches row key value;
  if negb m then Ok tt (* continue *) else Ok tt.

Section Load.

(** [int(float(s))] for a string [s]: Python's float parser followed by
    truncation; it raises on text that is not a number, on nan and on
    infinities. *)
Variable int_float : string → res Z.

Definition cell_int_float (c : cell) : res Z :=
  match c with
  | CStr s => int_float s
  | CInt n => Ok n
  end.

(** The body of [for row in reader]. *)
Definition process_row (a : args) (st : buckets) (raw : list string) : res buckets :=
  let r := length (store st) in
  let crowd_ignore_filter := default [] (crowd_ignore_filter a) in
  let convert_filter := default [] (convert_filter a) in
  raw ← strip_trailing raw;
  timestep ← getitem raw (time_col a);
  '(row, ign, is_ignored) ←
    for_each (ignore_step convert_filter timestep r)
             (CStr <$> raw, crowd_ignore_data st, false) crowd_ignore_filter;
  let skip row :=
    {| store := store st ++ [row]; read_data := read_data st;
       crowd_ignore_data := ign |} in
  if is_ignored : bool then Ok (skip row) (* continue *)
  else
    _ ← match valid_filter a with
        | Some vf => for_each (valid_step row) tt vf
        | None => Ok tt
        end;
    negative ←
      (if remove_negative_ids a then
         match id_col a with
         | Some c => v ← getitem row c; n ← cell_int_float v; Ok (bool_decide (n < 0))
         | None => Raise (Exception "list indices must be integers or slices, not NoneType")
         end
       else Ok false);
    if negative : bool then Ok (skip row) (* continue *)
    else
      row ← convert_row convert_filter row;
      Ok {| store := store st ++ [row];
            read_data := bucket_add (read_data st) timestep r;
            crowd_ignore_data := ign |}.

(** The id test of the row loop on its own:
    [remove_negative_ids and int(float(row[id_col])) < 0]. *)
Definition negative_id (a : args) (row : list cell) : res bool :=
  if remove_negative_ids a then
    match id_col a with
    | Some c => v ← getitem row c; n ← cell_int_float v; Ok (bool_decide (n < 0))
    | None => Raise (Exception "list indices must be integers or slices, not NoneType")
    end
  else Ok false.

(** Handles the call owns. *)
Inductive handle : Type := NotOpened | Opened | Closed.

Record files : Type := { fp : handle; archive : handle }.

(** What the file system and the csv module do for this call: the
    archive cannot be opened, the file (or archive member) cannot be
    opened, the sniffer finds no dialect, or the reader yields rows. *)
Inductive source : Type :=
  | NoArchive
  | NoFile
  | NoDialect
  | Rows (rows : list (list string)).

(** The whole call: the final state of the handles and either the two
    dicts or the exception that left the function. *)
Definition _load_simple_text_file (a : args) (src : source) : files * res buckets :=
  if remove_negative_ids a && bool_decide (id_col a = None) then
    ({| fp := NotOpened; archive := NotOpened |},
     Raise (Exception "remove_negative_ids is True, but id_col is not given."))
  else if is_zipped a && bool_decide (zip_file a = None) then
    ({| fp := NotOpened; archive := NotOpened |},
     Raise (Exception "is_zipped set to True, but no zip_file is given."))
  else
    let opened := if is_zipped a then Opened else NotOpened in
    match src with
    | NoArchive =>
        ({| fp := NotOpened; archive := NotOpened |}, Raise OSError)
    | NoFile =>
        ({| fp := NotOpened; archive := opened |}, Raise OSError)
    | NoDialect =>
        ({| fp := Opened; archive := opened |}, Raise CsvError)
    | Rows rows =>
        match for_each (process_row a) no_buckets rows with
        | Ok st => ({| fp := Closed; archive := opened |}, Ok st)
        | Raise e => ({| fp := Opened; archive := opened |}, Raise e)
        end
    end.

End Load.

(** A row every index of the call finds a column for: it is not empty,
    and after the trailing empty field is dropped it has the time column
    and the columns of both filters. *)
Definition has_column (raw : list string) (key : Z) : Prop :=
  is_Some (py_pos (length raw) key).


(** The same call without [valid_filter]. *)
Definition without_valid_filter (a : args) : args :=
  {| time_col := time_col a; id_col := id_col a;
     remove_negative_ids := remove_negative_ids a;
     valid_filter := None;
     crowd_ignore_filter := crowd_ignore_filter a;
     convert_filter := convert_filter a;
     is_zipped := is_zipped a; zip_file := zip_file a |}.

(** A stand-in for [int(float(s))] in the example runs: it reads plain
    decimal literals (an optional sign, digits, and an optional fraction
    that truncation discards) as Python does.  It refuses every other
    spelling, some of which Python accepts (exponents, padding,
    underscores, a bare fraction); the properties below do not depend on
    it, they hold for every [int_float]. *)
Definition digit_of (c : ascii) : option Z :=
  let n := nat_of_ascii c in
  if (48 <=? n)%nat && (n <=? 57)%nat then Some (Z.of_nat (n - 48)) else None.

Fixpoint digits (acc : Z) (seen : bool) (s : string) : option Z :=
  match s with
  | EmptyString => if seen then Some acc else None
  | String "."%char rest =>
      if seen && forallb (λ c, bool_decide (is_Some (digit_of c))) (list_ascii_of_string rest)
      then Some acc else None
  | String c rest =>
      match digit_of c with
      | Some d => digits (10 * acc + d) true rest
      | None => None
      end
  end.

Definition int_float_decimal (s : string) : res Z :=
  let '(sign, body) :=
    match s with
    | String "-"%char rest => (-1, rest)
    | String "+"%char rest => (1, rest)
    | _ => (1, s)
    end in
  match digits 0 false body with
  | Some n => Ok (sign * n)
  | None => Raise ValueError
  end.

End TextFile.

(** ** Box overlap: [_calculate_box_ious] *)

Module Boxes.

Local Open Scope float_scope.

(** One row of an [(N, 4)] float64 array. *)
Record box : Type := { c0 : float; c1 : float; c2 : float; c3 : float }.

(** [np.minimum] and [np.maximum] on two scalars: a nan in the first
    argument is returned, otherwise the comparison decides (so a nan in
    the second argument is returned as well). *)
Definition np_minimum (a b : float) : float :=
  if is_nan a then a else if a <? b then a else b.

Definition np_maximum (a b : float) : float :=
  if is_nan a then a else if b <? a then a else b.

(** The [xywh] branch, on one row of the copied array:
    [b[2] = b[0] + b[2]; b[3] = b[1] + b[3]]. *)
Definition to_corners (b : box) : box :=
  {| c0 := c0 b; c1 := c1 b; c2 := c0 b + c2 b; c3 := c1 b + c3 b |}.

(** [[
    min_ = np.minimum(b1, b2); max_ = np.maximum(b1, b2)
    intersection = np.maximum(min_[2] - max_[0], 0) * np.maximum(min_[3] - max_[1], 0)
    ]] *)
Definition intersection (b1 b2 : box) : float :=
  np_maximum (np_minimum (c2 b1) (c2 b2) - np_maximum (c0 b1) (c0 b2)) 0
  * np_maximum (np_minimum (c3 b1) (c3 b2) - np_maximum (c1 b1) (c1 b2)) 0.

(** [(b[2] - b[0]) * (b[3] - b[1])] *)
Definition area (b : box) : float := (c2 b - c0 b) * (c3 b - c1 b).

(** [do_ioa]: a row of zeros, overwritten by [intersection / area1] only
    where [area1 > 0]. *)
Definition ioa_entry (b1 b2 : box) : float :=
  if 0 <? area b1 then intersection b1 b2 / area b1 else 0.

(** [union = area1 + area2 - intersection], before any masking. *)
Definition union (b1 b2 : box) : float :=
  area b1 + area b2 - intersection b1 b2.

(** The three masked assignments to [intersection], in source order. *)
Definition iou_numerator (b1 b2 : box) : float :=
  let i0 := intersection b1 b2 in
  let i1 := if area b1 <=? 0 then 0 else i0 in
  let i2 := if area b2 <=? 0 then 0 else i1 in
  if union b1 b2 <=? 0 then 0 else i2.

(** [union[union <= 0] = 1] *)
Definition iou_denominator (b1 b2 : box) : float :=
  if union b1 b2 <=? 0 then 1 else union b1 b2.

Definition iou_entry (b1 b2 : box) : float :=
  iou_numerator b1 b2 / iou_denominator b1 b2.



(** A 2-D float64 array: its shape and its rows. *)
Record matrix : Type := { shape : nat * nat; entries : list (list float) }.

(** The entry at row [i], column [j]. *)
Definition entry (m : matrix) (i j : nat) : option float :=
  entries m !! i ≫= (.!! j).

(** The format test of the source is [box_format in 'xywh'] and then
    [box_format not in 'x0y0x1y1']: substring tests on strings. *)
Definition _calculate_box_ious (bboxes1 bboxes2 : list box) (box_format : string)
    (do_ioa : bool) : res matrix :=
  corners ←
    (if str_in box_format "xywh" then
       Ok (to_corners <$> bboxes1, to_corners <$> bboxes2)
     else if negb (str_in box_format "x0y0x1y1") then
       Raise (Exception ("box_format " +:+ box_format +:+ " is not implemented"))
     else Ok (bboxes1, bboxes2));
  let n_m := (length bboxes1, length bboxes2) in
  let '(bboxes1, bboxes2) := corners in
  if do_ioa then
    Ok {| shape := n_m; entries := (λ b1, ioa_entry b1 <$> bboxes2) <$> bboxes1 |}
  else
    Ok {| shape := n_m; entries := (λ b1, iou_entry b1 <$> bboxes2) <$> bboxes1 |}.

(** The corner form the overlap is computed on, for a format the call
    accepts. *)
Definition corner_form (box_format : string) (b : box) : box :=
  if str_in box_format "xywh" then to_corners b else b.

End Boxes.

(** ** Sequence records: [get_raw_seq_data] and [_check_unique_ids] *)

Module RawSeq.

Section Dataset.

(** The geometry of one detection and the similarity matrix of one
    timestep are chosen by the concrete dataset. *)
Variables Det Sim : Type.

(** Values a sequence record holds under its string keys. *)
Inductive value : Type :=
  | VInt (n : Z)
  | VStr (s : string)
  | VArrays (per_timestep : list (list Z))
  | VDets (per_timestep : list (list Det))
  | VSims (per_timestep : list Sim).

(** The abstract methods of the class. *)
Variable _load_raw_file : string → string → bool → res (gmap string value).
Variable _calculate_similarities : list Det → list Det → res Sim.

(** [str(v)] for a value that is not a string or an integer. *)
Variable str_object : value → string.

(** [raw_data[key]] *)
Definition field (raw_data : gmap string value) (key : string) : res value :=
  match raw_data !! key with
  | Some v => Ok v
  | None => Raise (KeyError key)
  end.

(** The detection lists [zip] iterates: a per-timestep list of lists. *)
Definition dets_field (raw_data : gmap string value) (key : string)
  : res (list (list Det)) :=
  v ← field raw_data key;
  match v with
  | VDets l => Ok l
  | _ => Raise (Exception "not a list of detection lists")
  end.

(** [{**raw_tracker_data, **raw_gt_data}]: the later dict overrides. *)
Definition merge (raw_gt_data raw_tracker_data : gmap string value)
  : gmap string value :=
  raw_gt_data ∪ raw_tracker_data.

Definition similarity_step (similarity_scores : list Sim)
    (dets : list Det * list Det) : res (list Sim) :=
  let '(gt_dets_t, tracker_dets_t) := dets in
  ious ← _calculate_similarities gt_dets_t tracker_dets_t;
  Ok (similarity_scores ++ [ious]).

Definition get_raw_seq_data (tracker seq : string) : res (gmap string value) :=
  raw_gt_data ← _load_raw_file tracker seq true;
  raw_tracker_data ← _load_raw_file tracker seq false;
  let raw_data := merge raw_gt_data raw_tracker_data in
  gt_dets ← dets_field raw_data "gt_dets";
  tracker_dets ← dets_field raw_data "tracker_dets";
  similarity_scores ← for_each similarity_step [] (zip gt_dets tracker_dets);
  Ok (<["similarity_scores" := VSims similarity_scores]> raw_data).

(** [_, counts = np.unique(ids, return_counts=True)]: the distinct
    values in increasing order, each with its number of occurrences. *)
Definition np_unique_counts (ids : list Z) : list nat :=
  (λ x, count_occ Z.eq_dec ids x) <$> merge_sort Z.le (remove_dups ids).

(** [np.max(counts)] on a non-empty array. *)
Definition np_max (counts : list nat) : nat := foldr Nat.max 0%nat counts.

Definition py_str (v : value) : string :=
  match v with
  | VStr s => s
  | VInt n => pretty n
  | _ => str_object v
  end.

Definition tracker_message (seq : string) (t : nat) : string :=
  "Tracker predicts the same ID more than once in a single timestep (seq: "
  +:+ seq +:+ ", time: " +:+ pretty t +:+ ")".

Definition gt_message (seq : string) (t : nat) : string :=
  "Ground-truth has the same ID more than once in a single timestep (seq: "
  +:+ seq +:+ ", time: " +:+ pretty t +:+ ")".

Definition arrays_field (data : gmap string value) (key : string)
  : res (list (list Z)) :=
  v ← field data key;
  match v with
  | VArrays l => Ok l
  | _ => Raise (Exception "not a list of id arrays")
  end.

(** [if len(ids_t) > 0: ... if np.max(counts) != 1: raise Exception(msg)] *)
Definition check_side (data : gmap string value) (message : string → nat → string)
    (t : nat) (ids_t : list Z) : res unit :=
  if bool_decide (0 < length ids_t)%nat then
    if bool_decide (np_max (np_unique_counts ids_t) ≠ 1%nat) then
      seq ← field data "seq";
      Raise (Exception (message (py_str seq) t))
    else Ok tt
  else Ok tt.

(** The loop over [enumerate(zip(gt_ids, tracker_ids))], from index [t]. *)
Fixpoint check_from (data : gmap string value) (t : nat)
    (pairs : list (list Z * list Z)) : res unit :=
  match pairs with
  | [] => Ok tt
  | (gt_ids_t, tracker_ids_t) :: rest =>
      _ ← check_side data tracker_message t tracker_ids_t;
      _ ← check_side data gt_message t gt_ids_t;
      check_from data (S t) rest
  end.

Definition _check_unique_ids (data : gmap string value) : res unit :=
  gt_ids ← arrays_field data "gt_ids";
  tracker_ids ← arrays_field data "tracker_ids";
  check_from data 0%nat (zip gt_ids tracker_ids).

End Dataset.

Arguments VInt {Det Sim} n.
Arguments VStr {Det Sim} s.
Arguments VArrays {Det Sim} per_timestep.
Arguments VDets {Det Sim} per_timestep.
Arguments VSims {Det Sim} per_timestep.

End RawSeq.

(** ** A small detection file

    Three rows in the layout [time, id, class] and the arguments of a
    loader that converts the class, keeps crowd rows apart and drops
    negative ids. *)

Module TextSample.

Import TextFile.

Definition sample_args : args :=
  {| time_col := 0; id_col := Some 1; remove_negative_ids := true;
     valid_filter := Some [(2, ["car"; "crowd"])];
     crowd_ignore_filter := Some [(2, ["crowd"])];
     convert_filter := Some [(2, list_to_map [("car", CInt 1); ("crowd", CInt 9)])];
     is_zipped := false; zip_file := None |}.

Definition sample_rows : list (list string) :=
  [["0"; "1"; "car"]; ["0"; "-3"; "car"]; ["1"; "2"; "Crowd"; ""]; ["0"; "4"; "Car"]].

(** The same file read from an archive, with no conversion and no id
    test. *)
Definition plain_zipped_args : args :=
  {| time_col := 0; id_col := None; remove_negative_ids := false;
     valid_filter := Some [(2, ["car"])];
     crowd_ignore_filter := Some [(2, ["crowd"])];
     convert_filter := None;
     is_zipped := true; zip_file := Some "data.zip" |}.

Definition plain_args : args :=
  {| time_col := 0; id_col := None; remove_negative_ids := false;
     valid_filter := Some [(2, ["car"])];
     crowd_ignore_filter := Some [(2, ["crowd"])];
     convert_filter := None;
     is_zipped := false; zip_file := None |}.

End TextSample.

(** ** A box dataset on two short sequences

    A concrete dataset in the style of the 2-D box benchmarks: detections
    are [xywh] boxes, the similarity method is [_calculate_box_ious] in
    IoU mode, and the loader returns fixed records. *)

Module BoxDataset.

Import Boxes RawSeq.

Local Open Scope float_scope.

Definition _calculate_similarities (gt_dets_t tracker_dets_t : list box) : res matrix :=
  _calculate_box_ious gt_dets_t tracker_dets_t "xywh" false.

Definition unit_box : box := {| c0 := 0; c1 := 0; c2 := 10; c3 := 10 |}.
Definition far_box : box := {| c0 := 50; c1 := 50; c2 := 10; c3 := 10 |}.

Definition raw_gt_data : gmap string (value box matrix) :=
  list_to_map
    [("num_timesteps", VInt 2%Z); ("seq", VStr "seq-01");
     ("gt_ids", VArrays [[1; 2]; [1]]%Z);
     ("gt_dets", VDets [[unit_box; far_box]; [unit_box]])].

Definition raw_tracker_data : gmap string (value box matrix) :=
  list_to_map
    [("num_timesteps", VInt 2%Z); ("seq", VStr "seq-01");
     ("tracker_ids", VArrays [[7]; [7; 8]]%Z);
     ("tracker_dets", VDets [[unit_box]; [far_box; unit_box]])].

Definition _load_raw_file (tracker seq : string) (is_gt : bool)
  : res (gmap string (value box matrix)) :=
  Ok (if is_gt then raw_gt_data else raw_tracker_data).

(** A tracker file cut short: its record announces one timestep and
    another sequence name, the ground truth two. *)
Definition raw_tracker_data_short : gmap string (value box matrix) :=
  list_to_map
    [("num_timesteps", VInt 1%Z); ("seq", VStr "seq-02");
     ("tracker_ids", VArrays [[7]]%Z);
     ("tracker_dets", VDets [[unit_box]])].

Definition _load_raw_file_short (tracker seq : string) (is_gt : bool)
  : res (gmap string (value box matrix)) :=
  Ok (if is_gt then raw_gt_data else raw_tracker_data_short).

(** A record whose tracker repeats id 5 at timestep 3. *)
Definition repeated_tracker_id : gmap string (value box matrix) :=
  list_to_map
    [("seq", VStr "seq-01");
     ("gt_ids", VArrays [[1]; [1]; [1]; [5; 6]]%Z);
     ("tracker_ids", VArrays [[5]; [5]; [5]; [5; 5]]%Z)].

(** A record with two timesteps of ground-truth ids and one of tracker
    ids; the second ground-truth timestep repeats id 2. *)
Definition uneven_timesteps : gmap string (value box matrix) :=
  list_to_map
    [("seq", VStr "seq-01");
     ("gt_ids", VArrays [[1]; [2; 2]]%Z);
     ("tracker_ids", VArrays [[5]]%Z)].

(** A record with a repeated ground-truth id and no sequence name. *)
Definition no_seq_name : gmap string (value box matrix) :=
  list_to_map
    [("gt_ids", VArrays [[1]; [2; 2]]%Z);
     ("tracker_ids", VArrays [[5]; [6]]%Z)].

(** A similarity method configured with a token the box helper refuses. *)
Definition _calculate_similarities_xyxy (gt_dets_t tracker_dets_t : list box)
  : res matrix :=
  _calculate_box_ious gt_dets_t tracker_dets_t "xyxy" false.

Definition str_object (v : value box matrix) : string := "<object>".

End BoxDataset.

(** * Properties *)

(** ** Generic facts about the exception monad and Python indexing *)

Section PyFacts.

Context {A B : Type}.

Lemma bind_ok (m : res A) (k : A → res B) (b : B) :
  m ≫= k = Ok b → ∃ a, m = Ok a ∧ k a = Ok b.
Proof. destruct m as [a|e]; [eauto | discriminate]. Qed.

Lemma for_each_app {S : Type} (body : S → A → res S) (s : S) (xs ys : list A) :
  for_each body s (xs ++ ys) = s' ← for_each body s xs; for_each body s' ys.
Proof.
  revert s. induction xs as [|x xs IH]; intros s; simpl; [done|].
  destruct (body s x) as [s'|e]; simpl; [apply IH | done].
Qed.

End PyFacts.

(** Inverts one hypothesis of the form [m ≫= k = Ok b]. *)
Ltac inv_bind H :=
  let a := fresh "a" in
  let Ha := fresh "Ha" in
  apply bind_ok in H; destruct H as (a & Ha & H).

(** ** Text ingestion *)

Section TextFileFacts.

Import TextFile.

Variable int_float : string → res Z.

Implicit Types (d : gmap string (list nat)) (st : buckets) (a : args).

Lemma count_refs_empty timestep r : count_refs ∅ timestep r = 0%nat.
Proof. unfold count_refs. by rewrite lookup_empty. Qed.

Lemma count_refs_bucket_add d timestep r timestep' r' :
  count_refs (bucket_add d timestep r) timestep' r' =
  (count_refs d timestep' r'
   + if bool_decide (timestep = timestep' ∧ r = r') then 1 else 0)%nat.
Proof.
  unfold count_refs, bucket_add.
  destruct (decide (timestep = timestep')) as [->|Hts].
  - destruct (d !! timestep') as [l|] eqn:Hl; rewrite lookup_insert_eq; simpl.
    + rewrite filter_app, length_app. f_equal.
      rewrite filter_cons, filter_nil.
      destruct (decide (r = r')) as [->|Hr].
      * rewrite decide_True, bool_decide_eq_true_2; done.
      * rewrite decide_False, bool_decide_eq_false_2; [done | by intros [_ ?] | done].
    + rewrite filter_cons, filter_nil.
      destruct (decide (r = r')) as [->|Hr].
      * rewrite decide_True, bool_decide_eq_true_2; done.
      * rewrite decide_False, bool_decide_eq_false_2; [done | by intros [_ ?] | done].
  - rewrite bool_decide_eq_false_2 by (by intros [? _]).
    destruct (d !! timestep) as [l|]; rewrite lookup_insert_ne by done; lia.
Qed.

Lemma count_refs_elem d timestep r :
  (0 < count_refs d timestep r)%nat ↔
  ∃ refs, d !! timestep = Some refs ∧ r ∈ refs.
Proof.
  unfold count_refs. split.
  - intros Hpos. destruct (d !! timestep) as [refs|]; simpl in *; [|lia].
    exists refs. split; [done|].
    destruct (base.filter (r =.) refs) as [|x l] eqn:Hf; simpl in *; [lia|].
    assert (x ∈ base.filter (r =.) refs) as Hx by (rewrite Hf; left).
    apply list_elem_of_filter in Hx as [-> Hx]. done.
  - intros (refs & -> & Hr). simpl.
    assert (r ∈ base.filter (r =.) refs) as Hx by (by apply list_elem_of_filter).
    destruct (base.filter (r =.) refs); [by apply elem_of_nil in Hx | simpl; lia].
Qed.


Lemma matches_entry_true row e :
  matches_entry row e = true ↔ matches row e.1 e.2 = Ok true.
Proof.
  unfold matches_entry. destruct (matches row e.1 e.2) as [[]|]; naive_solver.
Qed.

(** One turn of the ignore loop either leaves the state alone (no match)
    or converts the row, appends one reference and sets the flag. *)
Lemma ignore_step_ok cf timestep r row ign flag e row' ign' flag' :
  ignore_step cf timestep r (row, ign, flag) e = Ok (row', ign', flag') →
  (matches_entry row e = false ∧ row' = row ∧ ign' = ign ∧ flag' = flag) ∨
  (matches_entry row e = true ∧ convert_row cf row = Ok row' ∧
   ign' = bucket_add ign timestep r ∧ flag' = true).
Proof.
  unfold ignore_step, matches_entry. destruct e as [k v]. simpl.
  destruct (matches row k v) as [[]|]; simpl; [|naive_solver|done].
  destruct (convert_row cf row); simpl; naive_solver.
Qed.

(** The whole ignore loop, run on row object [r] with time token
    [timestep]: it only ever adds references to [r] under [timestep]; the
    flag records whether it added one; it adds one as soon as an entry
    matches the row it was started with; and with an empty conversion
    table it adds exactly one per matching entry. *)
Lemma ignore_loop_ok cf timestep r f : ∀ row ign flag row' ign' flag',
  for_each (ignore_step cf timestep r) (row, ign, flag) f = Ok (row', ign', flag') →
  (∀ ts' r', ¬ (timestep = ts' ∧ r = r') →
     count_refs ign' ts' r' = count_refs ign ts' r') ∧
  (count_refs ign timestep r ≤ count_refs ign' timestep r)%nat ∧
  flag' = flag || bool_decide (count_refs ign timestep r < count_refs ign' timestep r)%nat ∧
  (matching_entries row f ≠ [] →
     (count_refs ign timestep r < count_refs ign' timestep r)%nat) ∧
  (cf = [] → row' = row ∧
     count_refs ign' timestep r =
     (count_refs ign timestep r + length (matching_entries row f))%nat).
Proof.
  induction f as [|e f IH]; intros row ign flag row' ign' flag' Hrun; simpl in Hrun.
  - injection Hrun as -> -> ->.
    rewrite bool_decide_eq_false_2 by lia. rewrite orb_false_r.
    repeat split; simpl; try done; lia.
  - inv_bind Hrun. destruct a as [[row1 ign1] flag1].
    apply IH in Hrun as (Hother & Hmono & Hflag & Hsome & Hnil).
    apply ignore_step_ok in Ha as
      [(Hm & -> & -> & ->)|(Hm & Hconv & -> & ->)]; simpl; rewrite Hm.
    + by split_and!.
    + assert (count_refs (bucket_add ign timestep r) timestep r
              = S (count_refs ign timestep r)) as Hadd.
      { rewrite count_refs_bucket_add, bool_decide_eq_true_2 by done. lia. }
      rewrite Hadd in *. split_and!.
      * intros ts' r' Hne. rewrite Hother by done.
        rewrite count_refs_bucket_add, bool_decide_eq_false_2 by done. lia.
      * lia.
      * rewrite Hflag. simpl. rewrite bool_decide_eq_true_2 by lia.
        by rewrite orb_true_r.
      * intros _. lia.
      * intros ->. simpl in Hconv. injection Hconv as <-.
        destruct (Hnil eq_refl) as [-> ->]. simpl. split; [done | lia].
Qed.

(** What one turn of the row loop does to the references of its own row
    object and to those of every other row object. *)
Lemma process_row_ok a st raw st' :
  process_row int_float a st raw = Ok st' →
  let r := length (store st) in
  let cf := default [] (convert_filter a) in
  ∃ raw' timestep (kept : bool) (n : nat),
    strip_trailing raw = Ok raw' ∧
    getitem raw' (time_col a) = Ok timestep ∧
    length (store st') = S r ∧
    (∀ ts' r', count_refs (read_data st') ts' r' =
       (count_refs (read_data st) ts' r'
        + if bool_decide (timestep = ts' ∧ r = r') && kept then 1 else 0)%nat) ∧
    (∀ ts' r', count_refs (crowd_ignore_data st') ts' r' =
       (count_refs (crowd_ignore_data st) ts' r'
        + if bool_decide (timestep = ts' ∧ r = r') then n else 0)%nat) ∧
    (kept = true → n = 0%nat) ∧
    (matching_entries (CStr <$> raw') (default [] (crowd_ignore_filter a)) ≠ [] →
       (0 < n)%nat) ∧
    (cf = [] →
       n = length (matching_entries (CStr <$> raw') (default [] (crowd_ignore_filter a)))
       ∧ store st' !! r = Some (CStr <$> raw')).
Proof.
  intros Hrun r cf. unfold process_row in Hrun.
  inv_bind Hrun. rename a0 into raw'. inv_bind Hrun. rename a0 into timestep.
  inv_bind Hrun. destruct a0 as [[row ign] flag].
  apply ignore_loop_ok in Ha1 as (Hother & Hmono & Hflag & Hsome & Hnil).
  simpl in Hflag.
  set (n := (count_refs ign timestep (length (store st))
             - count_refs (crowd_ignore_data st) timestep (length (store st)))%nat).
  assert (∀ ts' r', count_refs ign ts' r' =
    (count_refs (crowd_ignore_data st) ts' r'
     + if bool_decide (timestep = ts' ∧ r = r') then n else 0)%nat) as Hign.
  { intros ts' r'. destruct (decide (timestep = ts' ∧ r = r')) as [[<- <-]|Hc].
    - rewrite bool_decide_eq_true_2 by done. subst n r. lia.
    - rewrite bool_decide_eq_false_2 by done. rewrite Hother by done. lia. }
  assert (cf = [] → (store st ++ [row]) !! r = Some (CStr <$> raw')) as Hstore.
  { intros Hcf. destruct (Hnil Hcf) as [-> _].
    subst r. by rewrite lookup_app_r, Nat.sub_diag by lia. }
  assert (cf = [] → n = length (matching_entries (CStr <$> raw')
                                  (default [] (crowd_ignore_filter a)))) as Hn.
  { intros Hcf. destruct (Hnil Hcf) as [_ Hc]. subst n. lia. }
  assert (∀ ts' r' : _, count_refs (read_data st) ts' r' =
    (count_refs (read_data st) ts' r'
     + if bool_decide (timestep = ts' ∧ r = r') && false then 1 else 0)%nat) as Hskip.
  { intros. rewrite andb_false_r. lia. }
  destruct flag.
  - (* the row is an ignore region *)
    injection Hrun as <-. simpl.
    exists raw', timestep, false, n. rewrite length_app. simpl.
    split_and!; try done; try lia.
    + intros _. symmetry in Hflag. apply bool_decide_eq_true in Hflag. subst n. lia.
    + intros Hcf. split; [by apply Hn | by apply Hstore].
  - symmetry in Hflag. apply bool_decide_eq_false in Hflag.
    assert (n = 0%nat) as Hn0 by (subst n; lia).
    inv_bind Hrun. inv_bind Hrun. destruct a1.
    + (* dropped for its negative id *)
      injection Hrun as <-. simpl.
      exists raw', timestep, false, n. rewrite length_app. simpl.
      split_and!; try done; try lia.
      * intros Hm. apply Hsome in Hm. lia.
      * intros Hcf. split; [by apply Hn | by apply Hstore].
    + (* kept *)
      inv_bind Hrun. injection Hrun as <-. simpl.
      exists raw', timestep, true, n. rewrite length_app. simpl.
      split_and!; try done; try lia.
      * intros ts' r'. by rewrite count_refs_bucket_add, andb_true_r.
      * intros Hm. apply Hsome in Hm. lia.
      * intros Hcf. split; [by apply Hn|]. destruct (Hnil Hcf) as [-> _].
        fold cf in Ha3. rewrite Hcf in Ha3. simpl in Ha3. injection Ha3 as <-.
        subst r. by rewrite lookup_app_r, Nat.sub_diag by lia.
Qed.

(** Every turn of the row loop creates exactly one row object. *)
Lemma process_row_store a st raw st' :
  process_row int_float a st raw = Ok st' →
  ∃ row, store st' = store st ++ [row].
Proof.
  intros Hrun. unfold process_row in Hrun.
  inv_bind Hrun. inv_bind Hrun. inv_bind Hrun. destruct a2 as [[row ign] flag].
  destruct flag; [injection Hrun as <-; by eexists|].
  inv_bind Hrun. inv_bind Hrun.
  destruct a3; [injection Hrun as <-; by eexists|].
  inv_bind Hrun. injection Hrun as <-. by eexists.
Qed.

(** Rows other than the one being processed keep their references, and
    the objects created so far stay where they are in the store. *)
Lemma rows_loop_frame a rows : ∀ st st',
  for_each (process_row int_float a) st rows = Ok st' →
  (∃ new, store st' = store st ++ new ∧ length new = length rows) ∧
  ∀ ts r, (r < length (store st) ∨ length (store st) + length rows ≤ r)%nat →
    count_refs (read_data st') ts r = count_refs (read_data st) ts r ∧
    count_refs (crowd_ignore_data st') ts r = count_refs (crowd_ignore_data st) ts r.
Proof.
  induction rows as [|raw rows IH]; intros st st' Hrun; simpl in Hrun.
  - injection Hrun as <-. split; [exists []; by rewrite app_nil_r | done].
  - inv_bind Hrun. rename a0 into st1.
    destruct (process_row_store _ _ _ _ Ha) as [row Hrow].
    apply process_row_ok in Ha as
      (raw' & timestep & kept & n & _ & _ & Hlen & Hread & Hign & _).
    apply IH in Hrun as [(new & Hnew & Hnewlen) Hframe].
    split.
    + exists (row :: new). rewrite Hnew, Hrow, <- app_assoc. simpl.
      split; [done | by rewrite Hnewlen].
    + intros ts r Hr. simpl in Hr.
      destruct (Hframe ts r) as [-> ->]; [lia|].
      rewrite Hread, Hign.
      rewrite !bool_decide_eq_false_2 by (intros [_ ?]; lia). simpl. lia.
Qed.

(** The row at position [i] of the reader is row object [i]; its
    references in the returned dicts are those its own turn created. *)
Lemma rows_loop_at a rows st i raw :
  for_each (process_row int_float a) no_buckets rows = Ok st →
  rows !! i = Some raw →
  ∃ raw' timestep (kept : bool) (n : nat),
    strip_trailing raw = Ok raw' ∧
    getitem raw' (time_col a) = Ok timestep ∧
    (∀ ts, count_refs (read_data st) ts i =
       if bool_decide (timestep = ts) && kept then 1%nat else 0%nat) ∧
    (∀ ts, count_refs (crowd_ignore_data st) ts i =
       if bool_decide (timestep = ts) then n else 0%nat) ∧
    (kept = true → n = 0%nat) ∧
    (matching_entries (CStr <$> raw') (default [] (crowd_ignore_filter a)) ≠ [] →
       (0 < n)%nat) ∧
    (default [] (convert_filter a) = [] →
       n = length (matching_entries (CStr <$> raw') (default [] (crowd_ignore_filter a)))
       ∧ store st !! i = Some (CStr <$> raw')).
Proof.
  intros Hrun Hi.
  rewrite <- (take_drop_middle rows i raw Hi), for_each_app in Hrun.
  inv_bind Hrun. rename a0 into st1. simpl in Hrun.
  inv_bind Hrun. rename a0 into st2.
  apply lookup_lt_Some in Hi as Hlt.
  apply rows_loop_frame in Ha as [(new & Hst1 & Hnew) Hpre].
  simpl in Hst1. rewrite length_take, Nat.min_l in Hnew by lia.
  assert (length (store st1) = i) as Hlen1 by (by rewrite Hst1).
  apply rows_loop_frame in Hrun as [(new2 & Hst & _) Hpost].
  destruct (process_row_store _ _ _ _ Ha0) as [row Hrow].
  apply process_row_ok in Ha0 as
    (raw' & timestep & kept & n & Hstrip & Htime & Hlen2 & Hread & Hign & Hkept
     & Hsome & Hnil).
  rewrite Hlen1 in *.
  exists raw', timestep, kept, n. split_and!; try done.
  - intros ts. destruct (Hpost ts i) as [-> _]; [lia|].
    rewrite Hread. destruct (Hpre ts i) as [-> _]; [right; simpl; rewrite length_take; lia|].
    rewrite count_refs_empty. simpl.
    destruct (decide (timestep = ts)) as [->|Hne].
    + by rewrite !bool_decide_eq_true_2.
    + by rewrite !bool_decide_eq_false_2 by (by intros [? _] || done).
  - intros ts. destruct (Hpost ts i) as [_ ->]; [lia|].
    rewrite Hign. destruct (Hpre ts i) as [_ ->]; [right; simpl; rewrite length_take; lia|].
    rewrite count_refs_empty. simpl.
    destruct (decide (timestep = ts)) as [->|Hne].
    + by rewrite !bool_decide_eq_true_2.
    + by rewrite !bool_decide_eq_false_2 by (by intros [? _] || done).
  - intros Hcf. destruct (Hnil Hcf) as [-> Hlook]. split; [done|].
    rewrite Hst. apply lookup_app_l_Some. done.
Qed.

(** *** The call returns on well-formed rows *)








(** *** [valid_filter] excludes nothing *)

(** X8: Whatever [valid_filter] is, a call that returns returns what the
    call without [valid_filter] returns. *)
Lemma valid_filter_excludes_nothing a rows files st :
  _load_simple_text_file int_float a (Rows rows) = (files, Ok st) →
  _load_simple_text_file int_float (without_valid_filter a) (Rows rows) = (files, Ok st).
Proof.
  unfold _load_simple_text_file. simpl.
  destruct (remove_negative_ids a && _); [by intros [= _ ?]|].
  destruct (is_zipped a && _); [by intros [= _ ?]|].
  assert (∀ st0 st1, for_each (process_row int_float a) st0 rows = Ok st1 →
            for_each (process_row int_float (without_valid_filter a)) st0 rows = Ok st1)
    as Hloop.
  { induction rows as [|raw rows' IH]; intros st0 st1 Hrun; simpl in *; [done|].
    inv_bind Hrun. rename a0 into st2.
    assert (process_row int_float (without_valid_filter a) st0 raw = Ok st2) as ->.
    { unfold process_row in *. simpl.
      destruct (strip_trailing raw) as [raw'|]; [simpl in *|done].
      destruct (getitem raw' (time_col a)) as [timestep|]; [simpl in *|done].
      destruct (for_each _ _ _) as [[[row ign] flag]|]; [simpl in *|done].
      destruct flag; [done|].
      destruct (valid_filter a) as [vf|]; [|done].
      by destruct (for_each (valid_step row) () vf) as [[]|]. }
    simpl. by apply IH. }
  destruct (for_each (process_row int_float a) no_buckets rows) as [st0|] eqn:Hrun;
    [|by intros [= _ ?]].
  intros [= <- <-]. by rewrite (Hloop _ _ Hrun).
Qed.

(** Closes [h = Closed ↔ ∃ st, r = Ok st] once [h] and [r] are known. *)
Ltac handle_case :=
  split;
  [ intros H; first [discriminate H | by eexists]
  | intros [? H]; first [discriminate H | done] ].

Lemma load_ok a rows files st :
  _load_simple_text_file int_float a (Rows rows) = (files, Ok st) →
  for_each (process_row int_float a) no_buckets rows = Ok st.
Proof.
  unfold _load_simple_text_file. intros Hrun.
  destruct (remove_negative_ids a && _); [by inversion Hrun|].
  destruct (is_zipped a && _); [by inversion Hrun|].
  destruct (for_each _ _ _); by inversion Hrun.
Qed.

(** C6: a row that matches at least one entry of [crowd_ignore_filter] is
    referenced from the ignore dict under its time token and from no list
    of the normal dict, whatever [valid_filter], [id_col] and
    [remove_negative_ids] are. *)
Theorem crowd_ignore_row_never_normal a rows files st i raw raw' key value :
  _load_simple_text_file int_float a (Rows rows) = (files, Ok st) →
  rows !! i = Some raw →
  strip_trailing raw = Ok raw' →
  (key, value) ∈ default [] (crowd_ignore_filter a) →
  matches (CStr <$> raw') key value = Ok true →
  ∃ timestep refs,
    getitem raw' (time_col a) = Ok timestep ∧
    crowd_ignore_data st !! timestep = Some refs ∧ i ∈ refs ∧
    ∀ ts refs', read_data st !! ts = Some refs' → i ∉ refs'.
Proof.
  intros Hrun Hi Hstrip Hin Hmatch. apply load_ok in Hrun.
  destruct (rows_loop_at _ _ _ _ _ Hrun Hi) as
    (raw2 & timestep & kept & n & Hstrip2 & Htime & Hread & Hign & Hkept
     & Hsome & _).
  rewrite Hstrip in Hstrip2. injection Hstrip2 as <-.
  assert (0 < n)%nat as Hn.
  { apply Hsome. intros Hnone.
    assert ((key, value) ∈ matching_entries (CStr <$> raw')
              (default [] (crowd_ignore_filter a))) as Hmem.
    { apply list_elem_of_In, filter_In. split; [by apply list_elem_of_In|].
      by apply matches_entry_true. }
    rewrite Hnone in Hmem. by apply elem_of_nil in Hmem. }
  assert (kept = false) as -> by (destruct kept; [specialize (Hkept eq_refl); lia | done]).
  assert (0 < count_refs (crowd_ignore_data st) timestep i)%nat as Hpos.
  { rewrite Hign, bool_decide_eq_true_2 by done. done. }
  apply count_refs_elem in Hpos as (refs & Hrefs & Hmem).
  exists timestep, refs. split_and!; try done.
  intros ts refs' Hrefs' Hmem'.
  assert (0 < count_refs (read_data st) ts i)%nat as Hpos'.
  { apply count_refs_elem. eauto. }
  rewrite Hread, andb_false_r in Hpos'. lia.
Qed.

(** C10: with an empty [convert_filter], the ignore dict holds, under the
    row's time token, exactly one reference to the row per entry of
    [crowd_ignore_filter] the row matches, and the row object is the
    stripped input row. *)
Theorem ignore_bucket_one_reference_per_match a rows files st i raw raw' timestep :
  default [] (convert_filter a) = [] →
  _load_simple_text_file int_float a (Rows rows) = (files, Ok st) →
  rows !! i = Some raw →
  strip_trailing raw = Ok raw' →
  getitem raw' (time_col a) = Ok timestep →
  count_refs (crowd_ignore_data st) timestep i =
    length (matching_entries (CStr <$> raw') (default [] (crowd_ignore_filter a))) ∧
  store st !! i = Some (CStr <$> raw').
Proof.
  intros Hcf Hrun Hi Hstrip Htime. apply load_ok in Hrun.
  destruct (rows_loop_at _ _ _ _ _ Hrun Hi) as
    (raw2 & timestep2 & kept & n & Hstrip2 & Htime2 & _ & Hign & _ & _ & Hnil).
  rewrite Hstrip in Hstrip2. injection Hstrip2 as <-.
  rewrite Htime in Htime2. injection Htime2 as <-.
  destruct (Hnil Hcf) as [<- Hstore]. split; [|done].
  by rewrite Hign, bool_decide_eq_true_2.
Qed.

(** C9, as the code has it: [fp] is closed exactly when the call returns
    its two dicts.  When an exception leaves the call, [fp] was never
    opened or is still open. *)
Theorem fp_closed_iff_returned a src :
  fp (_load_simple_text_file int_float a src).1 = Closed ↔
  ∃ st, (_load_simple_text_file int_float a src).2 = Ok st.
Proof.
  unfold _load_simple_text_file.
  destruct (remove_negative_ids a && _); [simpl; by handle_case|].
  destruct (is_zipped a && _); [simpl; by handle_case|].
  destruct src as [| | |rows]; simpl; try by handle_case.
  destruct (for_each _ _ _); simpl; by handle_case.
Qed.

End TextFileFacts.

(** *** Runs of the text ingestion on small files *)

Section TextFileRuns.

Import TextFile.

(** A two-row file whose second row is a crowd region that also satisfies
    [valid_filter] and has a non-negative id. *)
Lemma crowd_ignore_row_never_normal_witness :
  let a := {| time_col := 0; id_col := Some 1; remove_negative_ids := true;
              valid_filter := Some [(2, ["crowd"; "car"])];
              crowd_ignore_filter := Some [(2, ["crowd"])];
              convert_filter := None; is_zipped := false; zip_file := None |} in
  let rows := [["0"; "1"; "car"]; ["0"; "7"; "Crowd"]] in
  ∃ st, (_load_simple_text_file int_float_decimal a (Rows rows)).2 = Ok st ∧
  ∃ timestep refs,
    getitem ["0"; "7"; "Crowd"] (time_col a) = Ok timestep ∧
    crowd_ignore_data st !! timestep = Some refs ∧ 1%nat ∈ refs ∧
    ∀ ts refs', read_data st !! ts = Some refs' → 1%nat ∉ refs'.
Proof.
  intros a rows. eexists. split; [reflexivity|].
  apply (crowd_ignore_row_never_normal int_float_decimal a rows
           (_load_simple_text_file int_float_decimal a (Rows rows)).1 _
           1%nat ["0"; "7"; "Crowd"] ["0"; "7"; "Crowd"] 2 ["crowd"]).
  - reflexivity.
  - reflexivity.
  - reflexivity.
  - simpl. apply list_elem_of_here.
  - reflexivity.
Defined.

(** A row that matches two entries of [crowd_ignore_filter] is referenced
    twice from the ignore dict. *)
Lemma ignore_bucket_one_reference_per_match_witness :
  let a := {| time_col := 0; id_col := None; remove_negative_ids := false;
              valid_filter := None;
              crowd_ignore_filter := Some [(1, ["crowd"]); (2, ["1"])];
              convert_filter := None; is_zipped := false; zip_file := None |} in
  let rows := [["5"; "crowd"; "1"]] in
  ∃ st, (_load_simple_text_file int_float_decimal a (Rows rows)).2 = Ok st ∧
  count_refs (crowd_ignore_data st) "5" 0 = 2%nat ∧
  store st !! 0%nat = Some (CStr <$> ["5"; "crowd"; "1"]).
Proof.
  intros a rows. eexists. split; [reflexivity|].
  apply (ignore_bucket_one_reference_per_match int_float_decimal a rows
           (_load_simple_text_file int_float_decimal a (Rows rows)).1 _
           0%nat ["5"; "crowd"; "1"] ["5"; "crowd"; "1"] "5");
    reflexivity.
Defined.

(** The same run, as a caller sees the ignore dict: two copies of the
    row under its time token. *)
Example ignore_bucket_duplicates :
  let a := {| time_col := 0; id_col := None; remove_negative_ids := false;
              valid_filter := None;
              crowd_ignore_filter := Some [(1, ["crowd"]); (2, ["1"])];
              convert_filter := None; is_zipped := false; zip_file := None |} in
  ∃ st, (_load_simple_text_file int_float_decimal a (Rows [["5"; "crowd"; "1"]])).2 = Ok st ∧
  rows_at st (crowd_ignore_data st) "5"
  = Some [[CStr "5"; CStr "crowd"; CStr "1"]; [CStr "5"; CStr "crowd"; CStr "1"]] ∧
  rows_at st (read_data st) "5" = None.
Proof. intros a. eexists. split; [reflexivity|]. split; reflexivity. Qed.

(** C1, at the failing input: [valid_filter] allows only ["car"] in column
    1, the row has ["person"] there, and the row is in the normal dict. *)
Example valid_filter_keeps_unlisted_row :
  let a := {| time_col := 0; id_col := None; remove_negative_ids := false;
              valid_filter := Some [(1, ["car"])];
              crowd_ignore_filter := None;
              convert_filter := None; is_zipped := false; zip_file := None |} in
  matches [CStr "0"; CStr "person"] 1 ["car"] = Ok false ∧
  ∃ st, (_load_simple_text_file int_float_decimal a (Rows [["0"; "person"]])).2 = Ok st ∧
  rows_at st (read_data st) "0" = Some [[CStr "0"; CStr "person"]].
Proof. intros a. split; [reflexivity|]. eexists. split; reflexivity. Qed.

(** Rows at time tokens ["0"], ["0"], ["1"] with the default arguments:
    two rows under ["0"], one under ["1"], nothing under a token the file
    does not have. *)
Example bucketing :
  ∃ st, (_load_simple_text_file int_float_decimal default_args
           (Rows [["0"; "1"; "a"]; ["0"; "2"; "b"]; ["1"; "1"; "c"]])).2 = Ok st ∧
  rows_at st (read_data st) "0"
  = Some [[CStr "0"; CStr "1"; CStr "a"]; [CStr "0"; CStr "2"; CStr "b"]] ∧
  rows_at st (read_data st) "1" = Some [[CStr "1"; CStr "1"; CStr "c"]] ∧
  rows_at st (read_data st) "2" = None ∧
  crowd_ignore_data st = ∅.
Proof. eexists. split_and!; reflexivity. Qed.

(** A trailing empty field is dropped before the row is stored. *)
Example trailing_field :
  ∃ st, (_load_simple_text_file int_float_decimal default_args
           (Rows [["3"; "1"; ""]])).2 = Ok st ∧
  rows_at st (read_data st) "3" = Some [[CStr "3"; CStr "1"]].
Proof. eexists. split; reflexivity. Qed.

(** With [id_col=1] and [remove_negative_ids], a row with id [-1] is
    dropped from the normal dict, and kept in the ignore dict when it
    matches [crowd_ignore_filter]. *)
Example negative_ids :
  let a := {| time_col := 0; id_col := Some 1; remove_negative_ids := true;
              valid_filter := None;
              crowd_ignore_filter := Some [(2, ["crowd"])];
              convert_filter := None; is_zipped := false; zip_file := None |} in
  ∃ st, (_load_simple_text_file int_float_decimal a
           (Rows [["0"; "-1"; "10"; "10"; "5"; "5"]; ["0"; "-1"; "crowd"];
                  ["0"; "4"; "car"]])).2 = Ok st ∧
  rows_at st (read_data st) "0" = Some [[CStr "0"; CStr "4"; CStr "car"]] ∧
  rows_at st (crowd_ignore_data st) "0" = Some [[CStr "0"; CStr "-1"; CStr "crowd"]].
Proof. intros a. eexists. split_and!; reflexivity. Qed.

(** [convert_filter] rewrites the class column of the rows it keeps. *)
Example conversion :
  let a := {| time_col := 0; id_col := None; remove_negative_ids := false;
              valid_filter := None;
              crowd_ignore_filter := Some [(1, ["crowd"])];
              convert_filter :=
                Some [(1, list_to_map [("car", CInt 1); ("crowd", CInt 9)])];
              is_zipped := false; zip_file := None |} in
  ∃ st, (_load_simple_text_file int_float_decimal a
           (Rows [["0"; "Car"]; ["0"; "crowd"]])).2 = Ok st ∧
  rows_at st (read_data st) "0" = Some [[CStr "0"; CInt 1]] ∧
  rows_at st (crowd_ignore_data st) "0" = Some [[CStr "0"; CInt 9]].
Proof. intros a. eexists. split_and!; reflexivity. Qed.

(** With a conversion table, a row that matches a second entry of
    [crowd_ignore_filter] is converted a second time; the class column
    then holds an integer, which has no [lower]. *)
Example conversion_twice :
  let a := {| time_col := 0; id_col := None; remove_negative_ids := false;
              valid_filter := None;
              crowd_ignore_filter := Some [(1, ["crowd"]); (2, ["1"])];
              convert_filter := Some [(1, list_to_map [("crowd", CInt 9)])];
              is_zipped := false; zip_file := None |} in
  _load_simple_text_file int_float_decimal a (Rows [["5"; "crowd"; "1"]])
  = ({| fp := Opened; archive := NotOpened |}, Raise AttributeError).
Proof. reflexivity. Qed.

(** The two argument checks come before any file is opened. *)
Example rejected_arguments :
  let a := {| time_col := 0; id_col := None; remove_negative_ids := true;
              valid_filter := None; crowd_ignore_filter := None;
              convert_filter := None; is_zipped := false; zip_file := None |} in
  _load_simple_text_file int_float_decimal a (Rows [["0"; "1"]])
  = ({| fp := NotOpened; archive := NotOpened |},
     Raise (Exception "remove_negative_ids is True, but id_col is not given.")).
Proof. reflexivity. Qed.

(** C9 fails on a file with a blank line: the reader yields an empty row,
    [row[-1]] raises, and the exception leaves the call with [fp] open. *)
Example fp_left_open_on_error :
  _load_simple_text_file int_float_decimal default_args (Rows [["0"; "1"]; []])
  = ({| fp := Opened; archive := NotOpened |}, Raise IndexError).
Proof. reflexivity. Qed.

End TextFileRuns.

(** ** Sequence records *)

Section RawSeqFacts.

Import RawSeq.

Context {Det Sim : Type}.

Variable _load_raw_file : string → string → bool → res (gmap string (value Det Sim)).
Variable _calculate_similarities : list Det → list Det → res Sim.

Local Abbreviation record := (gmap string (value Det Sim)).
Local Abbreviation get_raw_seq_data :=
  (get_raw_seq_data Det Sim _load_raw_file _calculate_similarities).
Local Abbreviation similarity_step := (similarity_step Det Sim _calculate_similarities).

(** [{**raw_tracker_data, **raw_gt_data}] reads a key from the
    ground-truth dict first. *)
Lemma merge_lookup (raw_gt raw_tr : record) key :
  merge Det Sim raw_gt raw_tr !! key =
  match raw_gt !! key with Some v => Some v | None => raw_tr !! key end.
Proof.
  unfold merge. destruct (raw_gt !! key) as [v|] eqn:Hgt.
  - by apply lookup_union_Some_l.
  - by rewrite lookup_union_r.
Qed.

(** The similarity loop appends one matrix per pair, in order. *)
Lemma similarity_loop_ok pairs : ∀ acc sims,
  for_each similarity_step acc pairs = Ok sims →
  ∃ new, sims = acc ++ new ∧ length new = length pairs ∧
    ∀ t g d, pairs !! t = Some (g, d) →
      ∃ m, _calculate_similarities g d = Ok m ∧ new !! t = Some m.
Proof.
  induction pairs as [|[g0 d0] pairs IH]; intros acc sims Hrun; simpl in Hrun.
  - injection Hrun as <-. exists []. rewrite app_nil_r. split_and!; [done..|].
    intros t g d Ht. by rewrite lookup_nil in Ht.
  - inv_bind Hrun. unfold RawSeq.similarity_step in Ha. simpl in Ha.
    inv_bind Ha. injection Ha as <-.
    apply IH in Hrun as (new & -> & Hlen & Hnew).
    exists (a0 :: new). rewrite <- app_assoc. simpl. split_and!; [done | by rewrite Hlen |].
    intros [|t] g d Ht; simpl in *.
    + injection Ht as <- <-. eauto.
    + by apply Hnew.
Qed.

(** It returns as soon as every call of the similarity method returns. *)
Lemma similarity_loop_total pairs : ∀ acc,
  (∀ t g d, pairs !! t = Some (g, d) → is_ok (_calculate_similarities g d) = true) →
  ∃ sims, for_each similarity_step acc pairs = Ok sims.
Proof.
  induction pairs as [|[g0 d0] pairs IH]; intros acc Hok; simpl.
  - by eexists.
  - specialize (Hok 0%nat g0 d0 eq_refl) as H0.
    unfold RawSeq.similarity_step at 1. simpl.
    destruct (_calculate_similarities g0 d0) as [m|]; [simpl|done].
    apply IH. intros t g d Ht. by apply (Hok (S t)).
Qed.

(** What the call returns once both loads returned and the merged record
    has its two detection lists. *)
Lemma get_raw_seq_data_ok tracker seq (raw_gt raw_tr : record) gt_dets tracker_dets :
  _load_raw_file tracker seq true = Ok raw_gt →
  _load_raw_file tracker seq false = Ok raw_tr →
  merge Det Sim raw_gt raw_tr !! "gt_dets" = Some (VDets gt_dets) →
  merge Det Sim raw_gt raw_tr !! "tracker_dets" = Some (VDets tracker_dets) →
  get_raw_seq_data tracker seq =
  sims ← for_each similarity_step [] (zip gt_dets tracker_dets);
  Ok (<["similarity_scores" := VSims sims]> (merge Det Sim raw_gt raw_tr)).
Proof.
  intros Hgt Htr Hg Hd. unfold RawSeq.get_raw_seq_data.
  rewrite Hgt, Htr. simpl. unfold dets_field, field. by rewrite Hg, Hd.
Qed.

(** C4: on a key both loads return, the merged record holds the
    ground-truth value; so does the returned record, except under
    ["similarity_scores"], which the call assigns afterwards. *)
Theorem merged_record_prefers_gt tracker seq (raw_gt raw_tr : record) key v_gt v_tr :
  _load_raw_file tracker seq true = Ok raw_gt →
  _load_raw_file tracker seq false = Ok raw_tr →
  raw_gt !! key = Some v_gt →
  raw_tr !! key = Some v_tr →
  merge Det Sim raw_gt raw_tr !! key = Some v_gt ∧
  ∀ raw_data, get_raw_seq_data tracker seq = Ok raw_data →
    key ≠ "similarity_scores" → raw_data !! key = Some v_gt.
Proof.
  intros Hgt Htr Hkg Hkt.
  assert (merge Det Sim raw_gt raw_tr !! key = Some v_gt) as Hm
    by (by rewrite merge_lookup, Hkg).
  split; [done|]. intros raw_data Hrun Hne.
  unfold RawSeq.get_raw_seq_data in Hrun. rewrite Hgt, Htr in Hrun. simpl in Hrun.
  inv_bind Hrun. inv_bind Hrun. inv_bind Hrun. injection Hrun as <-.
  by rewrite lookup_insert_ne.
Qed.

(** C3, as the code has it: the two records are never compared.  When
    they disagree on a shared key the call still returns (as long as the
    detection lists are there and the similarity method returns), and the
    returned record holds the ground-truth value under that key. *)
Theorem disagreeing_records_are_merged tracker seq (raw_gt raw_tr : record)
    key v_gt v_tr gt_dets tracker_dets :
  _load_raw_file tracker seq true = Ok raw_gt →
  _load_raw_file tracker seq false = Ok raw_tr →
  key = "num_timesteps" ∨ key = "seq" →
  raw_gt !! key = Some v_gt →
  raw_tr !! key = Some v_tr →
  v_gt ≠ v_tr →
  merge Det Sim raw_gt raw_tr !! "gt_dets" = Some (VDets gt_dets) →
  merge Det Sim raw_gt raw_tr !! "tracker_dets" = Some (VDets tracker_dets) →
  (∀ t g d, gt_dets !! t = Some g → tracker_dets !! t = Some d →
     is_ok (_calculate_similarities g d) = true) →
  ∃ raw_data, get_raw_seq_data tracker seq = Ok raw_data ∧
    raw_data !! key = Some v_gt.
Proof.
  intros Hgt Htr Hkey Hkg Hkt _ Hg Hd Hok.
  rewrite (get_raw_seq_data_ok _ _ _ _ _ _ Hgt Htr Hg Hd).
  destruct (similarity_loop_total (zip gt_dets tracker_dets) []) as [sims ->].
  { intros t g d Ht. apply lookup_zip_with_Some in Ht as (g' & d' & [= <- <-] & ? & ?).
    eauto. }
  simpl. eexists. split; [done|].
  rewrite lookup_insert_ne by (by destruct Hkey as [-> | ->]).
  by rewrite merge_lookup, Hkg.
Qed.

(** The shape of a similarity matrix: rows and columns. *)
Variable shape : Sim → nat * nat.

(** C2: when the merged record has [num_timesteps] detection lists on
    each side, the returned record has [num_timesteps] similarity
    matrices, and the one at [t] is what the similarity method returns on
    the two detection lists of [t].  Its shape is
    [(len(gt_ids[t]), len(tracker_ids[t]))] when the similarity method
    returns one row per ground-truth detection and one column per tracker
    detection and the loaders return as many ids as detections. *)
Theorem similarity_scores_per_timestep tracker seq (raw_gt raw_tr : record)
    (num_timesteps : nat) gt_dets tracker_dets gt_ids tracker_ids :
  _load_raw_file tracker seq true = Ok raw_gt →
  _load_raw_file tracker seq false = Ok raw_tr →
  let merged := merge Det Sim raw_gt raw_tr in
  merged !! "num_timesteps" = Some (VInt (Z.of_nat num_timesteps)) →
  merged !! "gt_dets" = Some (VDets gt_dets) →
  merged !! "tracker_dets" = Some (VDets tracker_dets) →
  length gt_dets = num_timesteps →
  length tracker_dets = num_timesteps →
  merged !! "gt_ids" = Some (VArrays gt_ids) →
  merged !! "tracker_ids" = Some (VArrays tracker_ids) →
  (∀ t g d, gt_dets !! t = Some g → tracker_dets !! t = Some d →
     ∃ m, _calculate_similarities g d = Ok m ∧ shape m = (length g, length d)) →
  (∀ t g, gt_dets !! t = Some g → length <$> gt_ids !! t = Some (length g)) →
  (∀ t d, tracker_dets !! t = Some d → length <$> tracker_ids !! t = Some (length d)) →
  ∃ raw_data similarity_scores,
    get_raw_seq_data tracker seq = Ok raw_data ∧
    raw_data !! "num_timesteps" = Some (VInt (Z.of_nat num_timesteps)) ∧
    raw_data !! "similarity_scores" = Some (VSims similarity_scores) ∧
    length similarity_scores = num_timesteps ∧
    ∀ t, (t < num_timesteps)%nat →
      ∃ g d m ids_g ids_t,
        gt_dets !! t = Some g ∧ tracker_dets !! t = Some d ∧
        _calculate_similarities g d = Ok m ∧
        similarity_scores !! t = Some m ∧
        gt_ids !! t = Some ids_g ∧ tracker_ids !! t = Some ids_t ∧
        shape m = (length ids_g, length ids_t).
Proof.
  intros Hgt Htr merged Hn Hg Hd Hlg Hld Hig Hit Hcalc Hag Hat.
  rewrite (get_raw_seq_data_ok _ _ _ _ _ _ Hgt Htr Hg Hd).
  destruct (similarity_loop_total (zip gt_dets tracker_dets) []) as [sims Hsims].
  { intros t g d Ht. apply lookup_zip_with_Some in Ht as (g' & d' & [= <- <-] & Hg' & Hd').
    destruct (Hcalc t g d Hg' Hd') as (m & -> & _). done. }
  rewrite Hsims. simpl.
  apply similarity_loop_ok in Hsims as (new & -> & Hlen & Hnew). simpl.
  exists (<["similarity_scores" := VSims new]> merged), new.
  split_and!; [done | by rewrite lookup_insert_ne | by rewrite lookup_insert_eq | |].
  - rewrite Hlen, length_zip_with. lia.
  - intros t Ht.
    destruct (lookup_lt_is_Some_2 gt_dets t) as [g Hg']; [lia|].
    destruct (lookup_lt_is_Some_2 tracker_dets t) as [d Hd']; [lia|].
    destruct (Hnew t g d) as (m & Hm & Hnt).
    { apply lookup_zip_with_Some. eauto. }
    destruct (Hcalc t g d Hg' Hd') as (m' & Hm' & Hshape).
    rewrite Hm in Hm'. injection Hm' as <-.
    specialize (Hag t g Hg'). specialize (Hat t d Hd').
    destruct (gt_ids !! t) as [ids_g|]; [|done].
    destruct (tracker_ids !! t) as [ids_t|]; [|done].
    simpl in Hag, Hat. injection Hag as Hag. injection Hat as Hat.
    exists g, d, m, ids_g, ids_t. rewrite Hag, Hat. by split_and!.
Qed.

End RawSeqFacts.

(** *** The identity check *)

Section UniqueIdsFacts.

Import RawSeq.

Context {Det Sim : Type}.

Variable str_object : value Det Sim → string.

Local Abbreviation record := (gmap string (value Det Sim)).
Local Abbreviation check_side := (check_side Det Sim str_object).
Local Abbreviation check_from := (check_from Det Sim str_object).
Local Abbreviation _check_unique_ids := (_check_unique_ids Det Sim str_object).

Lemma np_max_ge counts c : c ∈ counts → (c ≤ np_max counts)%nat.
Proof.
  induction counts as [|c' counts IH]; intros Hc; [by apply elem_of_nil in Hc|].
  simpl. apply elem_of_cons in Hc as [->|Hc]; [lia|]. specialize (IH Hc). lia.
Qed.

Lemma np_max_elem counts : counts ≠ [] → np_max counts ∈ counts.
Proof.
  induction counts as [|c counts IH]; [done|]. intros _. simpl.
  destruct counts as [|c' counts'].
  - simpl. rewrite Nat.max_0_r. left.
  - destruct (Nat.max_spec c (np_max (c' :: counts'))) as [[_ ->]|[_ ->]].
    + right. by apply IH.
    + left.
Qed.

Lemma np_unique_counts_elem ids c :
  c ∈ np_unique_counts ids ↔ ∃ x, x ∈ ids ∧ c = count_occ Z.eq_dec ids x.
Proof.
  unfold np_unique_counts. rewrite list_elem_of_fmap.
  split; intros (x & H1 & H2).
  - exists x. split; [|done].
    apply elem_of_remove_dups. by rewrite <- (merge_sort_Permutation Z.le).
  - exists x. split; [done|].
    rewrite (merge_sort_Permutation Z.le). by apply elem_of_remove_dups.
Qed.

(** The test [np.max(counts) != 1] on a non-empty array of ids finds
    exactly the arrays with a repeated id. *)
Lemma duplicate_test ids :
  ids ≠ [] → np_max (np_unique_counts ids) = 1%nat ↔ NoDup ids.
Proof.
  intros Hne.
  assert (np_unique_counts ids ≠ []) as Hcounts.
  { destruct ids as [|x ids]; [done|]. intros Hnil.
    assert (count_occ Z.eq_dec (x :: ids) x ∈ np_unique_counts (x :: ids)) as Hx.
    { apply np_unique_counts_elem. exists x. split; [left | done]. }
    rewrite Hnil in Hx. by apply elem_of_nil in Hx. }
  split.
  - intros Hmax. apply NoDup_ListNoDup, (NoDup_count_occ Z.eq_dec). intros x.
    destruct (decide (x ∈ ids)) as [Hx|Hx].
    + rewrite <- Hmax. apply np_max_ge, np_unique_counts_elem. eauto.
    + rewrite list_elem_of_In in Hx.
      apply (count_occ_not_In Z.eq_dec) in Hx. lia.
  - intros Hnodup. apply NoDup_ListNoDup in Hnodup.
    apply np_max_elem, np_unique_counts_elem in Hcounts as (x & Hx & ->).
    apply (NoDup_count_occ' Z.eq_dec); [done | by apply list_elem_of_In].
Qed.

(** One side of one timestep: silent on distinct ids, otherwise the
    exception with the side's message, the sequence name and [t]. *)
Lemma check_side_ok (data : record) message seq t ids :
  data !! "seq" = Some (VStr seq) →
  check_side data message t ids =
  if decide (NoDup ids) then Ok tt else Raise (Exception (message seq t)).
Proof.
  intros Hseq. unfold RawSeq.check_side.
  destruct ids as [|x ids].
  - rewrite bool_decide_eq_false_2 by (simpl; lia).
    rewrite decide_True; [done | constructor].
  - rewrite bool_decide_eq_true_2 by (simpl; lia).
    destruct (decide (NoDup (x :: ids))) as [Hn|Hn].
    + rewrite bool_decide_eq_false_2; [done|].
      intros Hmax. apply Hmax. by apply duplicate_test.
    + rewrite bool_decide_eq_true_2.
      * unfold field. by rewrite Hseq.
      * intros Hmax. apply Hn. by apply duplicate_test.
Qed.

(** The loop over the zipped timesteps, started at index [t0]. *)
Lemma check_from_ok (data : record) seq pairs : ∀ t0,
  data !! "seq" = Some (VStr seq) →
  (Forall (λ p, NoDup p.1 ∧ NoDup p.2) pairs ∧ check_from data t0 pairs = Ok tt) ∨
  ∃ k gt_ids_t tracker_ids_t,
    pairs !! k = Some (gt_ids_t, tracker_ids_t) ∧
    Forall (λ p, NoDup p.1 ∧ NoDup p.2) (take k pairs) ∧
    ((¬ NoDup tracker_ids_t ∧
      check_from data t0 pairs = Raise (Exception (tracker_message seq (t0 + k)))) ∨
     (NoDup tracker_ids_t ∧ ¬ NoDup gt_ids_t ∧
      check_from data t0 pairs = Raise (Exception (gt_message seq (t0 + k))))).
Proof.
  induction pairs as [|[g d] pairs IH]; intros t0 Hseq; simpl.
  - left. by split.
  - rewrite !(check_side_ok _ _ seq) by done.
    destruct (decide (NoDup d)) as [Hd|Hd]; simpl.
    + destruct (decide (NoDup g)) as [Hg|Hg]; simpl.
      * destruct (IH (S t0) Hseq) as [[Hall Hrun]|(k & g' & d' & Hk & Hpre & Hcase)].
        -- left. split; [by constructor | done].
        -- right. exists (S k), g', d'. simpl. split_and!; [done | by constructor |].
           by replace (t0 + S k)%nat with (S t0 + k)%nat by lia.
      * right. exists 0%nat, g, d. simpl. split_and!; [done | constructor |].
        right. by rewrite Nat.add_0_r.
    + right. exists 0%nat, g, d. simpl. split_and!; [done | constructor |].
      left. by rewrite Nat.add_0_r.
Qed.

(** C7: on a record with its sequence name and as many timesteps of
    ground-truth ids as of tracker ids, the check returns silently when
    the ids of every timestep are pairwise distinct on each side, and
    otherwise raises, naming the sequence and the first timestep at which
    one side repeats an id.  Ids are only compared within a side. *)
Theorem check_unique_ids_ok (data : record) seq gt_ids tracker_ids :
  data !! "seq" = Some (VStr seq) →
  data !! "gt_ids" = Some (VArrays gt_ids) →
  data !! "tracker_ids" = Some (VArrays tracker_ids) →
  length gt_ids = length tracker_ids →
  ((∀ t ids, gt_ids !! t = Some ids → NoDup ids) →
   (∀ t ids, tracker_ids !! t = Some ids → NoDup ids) →
   _check_unique_ids data = Ok tt) ∧
  (∀ t ids, gt_ids !! t = Some ids ∨ tracker_ids !! t = Some ids → ¬ NoDup ids →
   ∃ t' gt_ids_t tracker_ids_t,
     (t' ≤ t)%nat ∧
     gt_ids !! t' = Some gt_ids_t ∧ tracker_ids !! t' = Some tracker_ids_t ∧
     ((¬ NoDup tracker_ids_t ∧
       _check_unique_ids data = Raise (Exception (tracker_message seq t'))) ∨
      (NoDup tracker_ids_t ∧ ¬ NoDup gt_ids_t ∧
       _check_unique_ids data = Raise (Exception (gt_message seq t'))))).
Proof.
  intros Hseq Hg Hd Hlen.
  assert (_check_unique_ids data = check_from data 0%nat (zip gt_ids tracker_ids)) as ->.
  { unfold RawSeq._check_unique_ids, arrays_field, field. by rewrite Hg, Hd. }
  destruct (check_from_ok data seq (zip gt_ids tracker_ids) 0%nat Hseq)
    as [[Hall Hrun]|(k & g & d & Hk & Hpre & Hcase)].
  - split; [done|]. intros t ids Hin Hdup. exfalso.
    rewrite Forall_lookup in Hall.
    assert (t < length gt_ids)%nat as Hlt.
    { destruct Hin as [Hin|Hin]; apply lookup_lt_Some in Hin; lia. }
    destruct (lookup_lt_is_Some_2 gt_ids t) as [g Hgt]; [lia|].
    destruct (lookup_lt_is_Some_2 tracker_ids t) as [d Hdt]; [lia|].
    destruct (Hall t (g, d)) as [Hng Hnd].
    { apply lookup_zip_with_Some. eauto. }
    simpl in *. destruct Hin as [Hin|Hin]; congruence.
  - apply lookup_zip_with_Some in Hk as (g' & d' & [= <- <-] & Hgk & Hdk).
    split.
    + intros Hallg Halld. exfalso.
      destruct Hcase as [[Hdup _]|(_ & Hdup & _)]; eauto.
    + intros t ids Hin Hdup. exists k, g, d. simpl in Hcase.
      split_and!; try done.
      destruct (decide (k ≤ t)%nat) as [|Hgt]; [done|]. exfalso.
      rewrite Forall_lookup in Hpre.
      assert (t < length gt_ids)%nat as Hlt.
      { destruct Hin as [Hin|Hin]; apply lookup_lt_Some in Hin; lia. }
      destruct (lookup_lt_is_Some_2 gt_ids t) as [g0 Hgt0]; [lia|].
      destruct (lookup_lt_is_Some_2 tracker_ids t) as [d0 Hdt0]; [lia|].
      destruct (Hpre t (g0, d0)) as [Hng Hnd].
      { rewrite lookup_take_lt by lia. apply lookup_zip_with_Some. eauto. }
      simpl in *. destruct Hin as [Hin|Hin]; congruence.
Qed.

End UniqueIdsFacts.

(** *** Runs of the orchestrator and of the identity check *)

Section RawSeqRuns.

Import Boxes RawSeq BoxDataset.

Local Abbreviation get_raw_seq_data :=
  (get_raw_seq_data box matrix _load_raw_file _calculate_similarities).

Lemma merged_record_prefers_gt_witness :
  merge box matrix raw_gt_data raw_tracker_data !! "seq" = Some (VStr "seq-01") ∧
  ∀ raw_data, get_raw_seq_data "trk" "seq-01" = Ok raw_data →
    "seq" ≠ "similarity_scores" → raw_data !! "seq" = Some (VStr "seq-01").
Proof.
  apply (merged_record_prefers_gt _load_raw_file _calculate_similarities
           "trk" "seq-01" raw_gt_data raw_tracker_data "seq"
           (VStr "seq-01") (VStr "seq-01")); reflexivity.
Defined.

(** C3 fails on the short tracker file: the two records disagree on both
    shared fields, and the call returns a record with the ground-truth
    values. *)
Example disagreeing_records_no_error :
  raw_gt_data !! "num_timesteps" = Some (VInt 2) ∧
  raw_tracker_data_short !! "num_timesteps" = Some (VInt 1) ∧
  ∃ raw_data,
    RawSeq.get_raw_seq_data box matrix _load_raw_file_short _calculate_similarities
      "trk" "seq-01" = Ok raw_data ∧
    raw_data !! "num_timesteps" = Some (VInt 2) ∧
    raw_data !! "seq" = Some (VStr "seq-01").
Proof. split; [reflexivity|]. split; [reflexivity|]. eexists. by split_and!. Qed.

Lemma disagreeing_records_are_merged_witness :
  ∃ raw_data,
    RawSeq.get_raw_seq_data box matrix _load_raw_file_short _calculate_similarities
      "trk" "seq-01" = Ok raw_data ∧
    raw_data !! "num_timesteps" = Some (VInt 2).
Proof.
  apply (disagreeing_records_are_merged _load_raw_file_short _calculate_similarities
           "trk" "seq-01" raw_gt_data raw_tracker_data_short "num_timesteps"
           (VInt 2) (VInt 1)
           [[unit_box; far_box]; [unit_box]] [[unit_box]]).
  - reflexivity.
  - reflexivity.
  - by left.
  - reflexivity.
  - reflexivity.
  - discriminate.
  - reflexivity.
  - reflexivity.
  - intros t g d _ _. reflexivity.
Defined.

Lemma similarity_scores_per_timestep_witness :
  ∃ raw_data similarity_scores,
    get_raw_seq_data "trk" "seq-01" = Ok raw_data ∧
    raw_data !! "num_timesteps" = Some (VInt 2) ∧
    raw_data !! "similarity_scores" = Some (VSims similarity_scores) ∧
    length similarity_scores = 2%nat ∧
    ∀ t, (t < 2)%nat →
      ∃ g d m ids_g ids_t,
        [[unit_box; far_box]; [unit_box]] !! t = Some g ∧
        [[unit_box]; [far_box; unit_box]] !! t = Some d ∧
        _calculate_similarities g d = Ok m ∧
        similarity_scores !! t = Some m ∧
        [[1; 2]; [1]] !! t = Some ids_g ∧ [[7]; [7; 8]] !! t = Some ids_t ∧
        shape m = (length ids_g, length ids_t).
Proof.
  apply (similarity_scores_per_timestep _load_raw_file _calculate_similarities shape
           "trk" "seq-01" raw_gt_data raw_tracker_data 2%nat).
  - reflexivity.
  - reflexivity.
  - reflexivity.
  - reflexivity.
  - reflexivity.
  - reflexivity.
  - reflexivity.
  - reflexivity.
  - reflexivity.
  - intros t g d _ _. eexists. split; reflexivity.
  - intros [|[|t]] g Hg; simpl in Hg; [by injection Hg as <-..|discriminate].
  - intros [|[|t]] d Hd; simpl in Hd; [by injection Hd as <-..|discriminate].
Defined.

(** The first similarity matrix of that run: the ground-truth box at
    the same place as the tracker box scores 1, the far one 0. *)
Example similarity_scores_first_timestep :
  ∃ raw_data m sims,
    get_raw_seq_data "trk" "seq-01" = Ok raw_data ∧
    raw_data !! "similarity_scores" = Some (VSims (m :: sims)) ∧
    shape m = (2%nat, 1%nat) ∧ entries m = [[1%float]; [0%float]].
Proof. do 3 eexists. split_and!; reflexivity. Qed.

Lemma check_unique_ids_ok_witness :
  let gt_ids := [[1]; [1]; [1]; [5; 6]] in
  let tracker_ids := [[5]; [5]; [5]; [5; 5]] in
  ((∀ t ids, gt_ids !! t = Some ids → NoDup ids) →
   (∀ t ids, tracker_ids !! t = Some ids → NoDup ids) →
   _check_unique_ids box matrix str_object repeated_tracker_id = Ok tt) ∧
  (∀ t ids, gt_ids !! t = Some ids ∨ tracker_ids !! t = Some ids → ¬ NoDup ids →
   ∃ t' gt_ids_t tracker_ids_t,
     (t' ≤ t)%nat ∧
     gt_ids !! t' = Some gt_ids_t ∧ tracker_ids !! t' = Some tracker_ids_t ∧
     ((¬ NoDup tracker_ids_t ∧
       _check_unique_ids box matrix str_object repeated_tracker_id
       = Raise (Exception (tracker_message "seq-01" t'))) ∨
      (NoDup tracker_ids_t ∧ ¬ NoDup gt_ids_t ∧
       _check_unique_ids box matrix str_object repeated_tracker_id
       = Raise (Exception (gt_message "seq-01" t'))))).
Proof.
  apply (check_unique_ids_ok str_object repeated_tracker_id "seq-01"); reflexivity.
Defined.

(** The run of the check on that record: the error names the sequence
    and timestep 3.  The id 5 that both sides use there (and at the
    earlier timesteps) is no violation. *)
Example repeated_tracker_id_raises :
  _check_unique_ids box matrix str_object repeated_tracker_id =
  Raise (Exception
    "Tracker predicts the same ID more than once in a single timestep (seq: seq-01, time: 3)").
Proof. reflexivity. Qed.

(** [zip] stops at the shorter list: the check does not look at a
    timestep only one side has. *)
Example uneven_timesteps_unchecked :
  _check_unique_ids box matrix str_object uneven_timesteps = Ok tt.
Proof. reflexivity. Qed.

End RawSeqRuns.

(** ** Box overlap *)

Section BoxFacts.

Import Boxes.

Local Open Scope float_scope.

(** *** binary64 facts the overlap code relies on *)

(** How a float sits with respect to zero, as [Prim2SF] shows it. *)
Lemma leb_zero_false (x : float) :
  (x <=? 0) = false → is_nan x = false →
  Prim2SF x = S754_infinity false ∨ ∃ m e, Prim2SF x = S754_finite false m e.
Proof.
  unfold is_nan. rewrite FloatAxioms.leb_spec, FloatAxioms.eqb_spec.
  change (Prim2SF 0) with (S754_zero false).
  destruct (Prim2SF x) as [s|s| |s m e]; simpl; try discriminate.
  - destruct s; [discriminate | by left].
  - destruct s; [discriminate | right; eauto].
Qed.

Lemma ltb_zero_true (x : float) :
  (0 <? x) = true →
  Prim2SF x = S754_infinity false ∨ ∃ m e, Prim2SF x = S754_finite false m e.
Proof.
  rewrite FloatAxioms.ltb_spec. change (Prim2SF 0) with (S754_zero false).
  destruct (Prim2SF x) as [s|s| |s m e]; simpl; try discriminate.
  - destruct s; [discriminate | by left].
  - destruct s; [discriminate | right; eauto].
Qed.

(** A float above zero is not zero, and zero divided by it is zero. *)
Lemma positive_not_zero (x : float) :
  Prim2SF x = S754_infinity false ∨ (∃ m e, Prim2SF x = S754_finite false m e) →
  is_zero x = false.
Proof.
  unfold is_zero. rewrite FloatAxioms.eqb_spec. change (Prim2SF zero) with (S754_zero false).
  by intros [->|(m & e & ->)].
Qed.

Lemma zero_div_positive (x : float) :
  Prim2SF x = S754_infinity false ∨ (∃ m e, Prim2SF x = S754_finite false m e) →
  0 / x = 0.
Proof.
  intros Hx. apply FloatAxioms.Prim2SF_inj. rewrite FloatAxioms.div_spec.
  change (Prim2SF 0) with (S754_zero false).
  by destruct Hx as [->|(m & e & ->)].
Qed.

(** A non-positive float is not above zero. *)
Lemma leb_zero_not_ltb (x : float) : (x <=? 0) = true → (0 <? x) = false.
Proof.
  rewrite FloatAxioms.leb_spec, FloatAxioms.ltb_spec. change (Prim2SF 0) with (S754_zero false).
  destruct (Prim2SF x) as [s|s| |s m e]; simpl; try done; by destruct s.
Qed.

(** *** The two scores *)

(** IoA divides only by an area above zero, and scores 0 on a row whose
    box has non-positive area. *)
Lemma ioa_divisor_not_zero (b1 : box) : (0 <? area b1) = true → is_zero (area b1) = false.
Proof. intros H. by apply positive_not_zero, ltb_zero_true. Qed.

Lemma ioa_entry_nonpositive (b1 b2 : box) : (area b1 <=? 0) = true → ioa_entry b1 b2 = 0.
Proof. intros H. unfold ioa_entry. by rewrite leb_zero_not_ltb. Qed.

(** IoU never divides by zero: a union that is zero is clamped to 1. *)
Lemma iou_denominator_not_zero (b1 b2 : box) : is_zero (iou_denominator b1 b2) = false.
Proof.
  unfold iou_denominator. destruct (union b1 b2 <=? 0) eqn:Hu; [done|].
  unfold is_zero. rewrite FloatAxioms.eqb_spec. rewrite FloatAxioms.leb_spec in Hu.
  unfold SFeqb. unfold SFleb in Hu. change (Prim2SF 0) with (Prim2SF zero) in Hu.
  by destruct (SFcompare (Prim2SF (union b1 b2)) (Prim2SF zero)) as [[]|].
Qed.

(** IoU scores 0 against a box of non-positive area, unless the union
    is not a number. *)
Lemma iou_entry_nonpositive (b1 b2 : box) :
  (area b1 <=? 0) = true ∨ (area b2 <=? 0) = true →
  is_nan (union b1 b2) = false →
  iou_entry b1 b2 = 0.
Proof.
  intros Harea Hnan. unfold iou_entry.
  assert (iou_numerator b1 b2 = 0) as ->.
  { unfold iou_numerator. destruct (union b1 b2 <=? 0); [done|].
    destruct Harea as [->| ->]; [by destruct (area b2 <=? 0) | done]. }
  unfold iou_denominator. destruct (union b1 b2 <=? 0) eqn:Hu; [done|].
  by apply zero_div_positive, leb_zero_false.
Qed.

(** *** The matrix *)

(** Which tokens the call takes: every substring of ['xywh'] (as
    [xywh]) and every substring of ['x0y0x1y1']. *)
Lemma box_format_accepted bboxes1 bboxes2 box_format do_ioa :
  is_ok (_calculate_box_ious bboxes1 bboxes2 box_format do_ioa)
  = str_in box_format "xywh" || str_in box_format "x0y0x1y1".
Proof.
  unfold _calculate_box_ious.
  generalize (str_in box_format "xywh"), (str_in box_format "x0y0x1y1").
  by intros [] [] ; destruct do_ioa.
Qed.

(** The returned matrix holds, at [(i, j)], the score of the corner
    forms of the [i]-th and [j]-th boxes. *)
Lemma calculate_box_ious_entry bboxes1 bboxes2 box_format do_ioa m i j b1 b2 :
  _calculate_box_ious bboxes1 bboxes2 box_format do_ioa = Ok m →
  bboxes1 !! i = Some b1 →
  bboxes2 !! j = Some b2 →
  shape m = (length bboxes1, length bboxes2) ∧
  entry m i j =
  Some ((if do_ioa then ioa_entry else iou_entry)
          (corner_form box_format b1) (corner_form box_format b2)).
Proof.
  unfold _calculate_box_ious, corner_form, entry.
  generalize (str_in box_format "xywh"), (str_in box_format "x0y0x1y1").
  intros xywh corners Hrun H1 H2.
  destruct xywh, corners, do_ioa; try discriminate;
    injection Hrun as <-; cbn [shape entries]; (split; [done|]);
    rewrite ?list_lookup_fmap, H1; cbn [fmap option_fmap option_map mbind option_bind];
    by rewrite ?list_lookup_fmap, H2.
Qed.

(** C5, as binary64 arithmetic has it: no division of the call has a
    zero divisor, and the score of a pair is exactly 0 when the first box
    has non-positive area or, in IoU mode, the second has, provided in
    IoU mode that the union of the pair is a number. *)
Theorem degenerate_boxes_score_zero bboxes1 bboxes2 box_format do_ioa m i j b1 b2 :
  _calculate_box_ious bboxes1 bboxes2 box_format do_ioa = Ok m →
  bboxes1 !! i = Some b1 →
  bboxes2 !! j = Some b2 →
  let c1 := corner_form box_format b1 in
  let c2 := corner_form box_format b2 in
  if do_ioa then
    entry m i j = Some (ioa_entry c1 c2) ∧
    ((0 <? area c1) = true → is_zero (area c1) = false) ∧
    ((0 <? area c1) = false → entry m i j = Some 0) ∧
    ((area c1 <=? 0) = true → entry m i j = Some 0)
  else
    entry m i j = Some (iou_numerator c1 c2 / iou_denominator c1 c2) ∧
    is_zero (iou_denominator c1 c2) = false ∧
    ((union c1 c2 <=? 0) = true → iou_denominator c1 c2 = 1) ∧
    ((area c1 <=? 0) = true ∨ (area c2 <=? 0) = true →
     is_nan (union c1 c2) = false → entry m i j = Some 0).
Proof.
  intros Hrun H1 H2 c1 c2.
  destruct (calculate_box_ious_entry _ _ _ _ _ _ _ _ _ Hrun H1 H2) as [_ Hentry].
  fold c1 c2 in Hentry. destruct do_ioa; split_and!; try done.
  - apply ioa_divisor_not_zero.
  - intros Hlt. rewrite Hentry. unfold ioa_entry. by rewrite Hlt.
  - intros Hle. by rewrite Hentry, ioa_entry_nonpositive.
  - apply iou_denominator_not_zero.
  - intros Hu. unfold iou_denominator. by rewrite Hu.
  - intros Harea Hnan. by rewrite Hentry, iou_entry_nonpositive.
Qed.

End BoxFacts.

(** *** Runs of the overlap helper *)

Section BoxRuns.

Import Boxes BoxDataset.

Local Open Scope float_scope.

(** The identity and disjointness examples: a box against itself scores
    1, against a box far away 0. *)
Example iou_identity :
  entries <$> _calculate_box_ious [unit_box] [unit_box; far_box] "xywh" false
  = Ok [[1; 0]].
Proof. reflexivity. Qed.

(** A box inside another covers all of its own area, not all of the
    other's. *)
Example ioa_asymmetry :
  let inner := {| c0 := 2; c1 := 2; c2 := 5; c3 := 5 |} in
  entries <$> _calculate_box_ious [inner] [unit_box] "xywh" true = Ok [[1]] ∧
  entries <$> _calculate_box_ious [unit_box] [inner] "xywh" true = Ok [[0.25]].
Proof. split; reflexivity. Qed.

(** A box of zero width against itself and against a proper box. *)
Lemma degenerate_boxes_score_zero_witness :
  let flat := {| c0 := 3; c1 := 3; c2 := 0; c3 := 5 |} in
  ∃ m, _calculate_box_ious [flat] [flat; unit_box] "xywh" false = Ok m ∧
    entry m 0 1 = Some (iou_numerator (to_corners flat) (to_corners unit_box)
                        / iou_denominator (to_corners flat) (to_corners unit_box)) ∧
    is_zero (iou_denominator (to_corners flat) (to_corners unit_box)) = false ∧
    ((union (to_corners flat) (to_corners unit_box) <=? 0) = true →
     iou_denominator (to_corners flat) (to_corners unit_box) = 1) ∧
    ((area (to_corners flat) <=? 0) = true ∨ (area (to_corners unit_box) <=? 0) = true →
     is_nan (union (to_corners flat) (to_corners unit_box)) = false →
     entry m 0 1 = Some 0).
Proof.
  intros flat. eexists. split; [reflexivity|].
  apply (degenerate_boxes_score_zero [flat] [flat; unit_box] "xywh" false _
           0%nat 1%nat flat unit_box); reflexivity.
Defined.

(** The same pair and the flat box against itself, evaluated: both
    scores are 0, the second through the clamped union. *)
Example flat_box_scores :
  let flat := {| c0 := 3; c1 := 3; c2 := 0; c3 := 5 |} in
  entries <$> _calculate_box_ious [flat] [flat; unit_box] "xywh" false = Ok [[0; 0]] ∧
  union (to_corners flat) (to_corners flat) = 0 ∧
  iou_denominator (to_corners flat) (to_corners flat) = 1.
Proof. split_and!; reflexivity. Qed.

(** C5 fails where binary64 overflows: the first box has area
    [-infinity], the second [+infinity], their union is not a number,
    no mask applies to it, and the score of the pair is [nan]. *)
Example overflowing_boxes_score_nan :
  let b1 := {| c0 := 0; c1 := 0; c2 := 0x1p+600; c3 := -0x1p+600 |} in
  let b2 := {| c0 := 0; c1 := 0; c2 := 0x1p+600; c3 := 0x1p+600 |} in
  (area b1 <=? 0) = true ∧
  area b1 = neg_infinity ∧ area b2 = infinity ∧ is_nan (union b1 b2) = true ∧
  entries <$> _calculate_box_ious [b1] [b2] "x0y0x1y1" false = Ok [[nan]].
Proof. split_and!; reflexivity. Qed.

(** C8, at the failing input: ["xy"] is neither supported token, and the
    call treats it as [xywh] instead of raising.  So it does for every
    other substring of the two tokens, the empty string included. *)
Example substring_format_accepted :
  _calculate_box_ious [unit_box] [unit_box] "xy" false
  = _calculate_box_ious [unit_box] [unit_box] "xywh" false ∧
  entries <$> _calculate_box_ious [unit_box] [unit_box] "xy" false = Ok [[1]] ∧
  is_ok (_calculate_box_ious [unit_box] [unit_box] "" false) = true ∧
  is_ok (_calculate_box_ious [unit_box] [unit_box] "y0x1" false) = true.
Proof. split_and!; reflexivity. Qed.

(** A token that occurs in neither string is refused with the message of
    the source, and the two documented tokens are taken. *)
Example box_formats :
  _calculate_box_ious [unit_box] [unit_box] "xyxy" false
  = Raise (Exception "box_format xyxy is not implemented") ∧
  is_ok (_calculate_box_ious [unit_box] [unit_box] "xywh" false) = true ∧
  is_ok (_calculate_box_ious [unit_box] [unit_box] "x0y0x1y1" false) = true.
Proof. split_and!; reflexivity. Qed.

End BoxRuns.

(** ** More on the text ingestion *)

Section TextFileMore.

Import TextFile.

Variable int_float : string → res Z.

Implicit Types (d : gmap string (list nat)) (st : buckets) (a : args).

(** Inverts [m ≫= k = Ok b], naming the intermediate value. *)
Ltac inv_bind_as H x Hx :=
  apply bind_ok in H; destruct H as (x & Hx & H).

(** *** Indexing and conversion keep the width of a row *)

Lemma getitem_ok_pos {A} (l : list A) key x :
  getitem l key = Ok x → ∃ p, py_pos (length l) key = Some p ∧ l !! p = Some x.
Proof.
  unfold getitem. destruct (py_pos (length l) key) as [p|]; simpl; [|done].
  destruct (l !! p) as [y|] eqn:Hp; [|done]. intros [= <-]. eauto.
Qed.

Lemma setitem_ok {A} (l : list A) key x l' :
  setitem l key x = Ok l' →
  ∃ p, py_pos (length l) key = Some p ∧ l' = <[p:=x]> l.
Proof.
  unfold setitem. destruct (py_pos (length l) key) as [p|]; [|done].
  intros [= <-]. eauto.
Qed.

Lemma matches_ok_column row key value b :
  matches row key value = Ok b → is_Some (py_pos (length row) key).
Proof.
  unfold matches. intros H. inv_bind_as H c Hc.
  apply getitem_ok_pos in Hc as (p & -> & _). eauto.
Qed.

Lemma convert_step_frame row e row' :
  convert_step row e = Ok row' →
  length row' = length row ∧
  ∀ p, py_pos (length row) e.1 ≠ Some p → row' !! p = row !! p.
Proof.
  destruct e as [k table]. unfold convert_step. intros H.
  inv_bind_as H c Hc. inv_bind_as H s Hs. destruct (table !! s) as [v|]; [|done].
  apply setitem_ok in H as (q & Hq & ->). simpl. split.
  - apply length_insert.
  - intros p Hp. apply list_lookup_insert_ne. congruence.
Qed.

Lemma convert_row_frame cf : ∀ row row',
  convert_row cf row = Ok row' →
  length row' = length row ∧
  ∀ p, Forall (λ e, py_pos (length row) e.1 ≠ Some p) cf → row' !! p = row !! p.
Proof.
  unfold convert_row. induction cf as [|e cf IH]; intros row row' H; simpl in H.
  - by injection H as <-.
  - inv_bind_as H row1 Hstep. apply convert_step_frame in Hstep as [Hlen Hsame].
    apply IH in H as [Hlen' Hsame']. split; [congruence|].
    intros p Hp. apply Forall_cons in Hp as [Hp1 Hp2].
    rewrite Hsame', Hsame; [done..|]. by rewrite Hlen.
Qed.

(** The ignore loop reads the column of every entry, and whatever it
    converts, the row keeps its width and the columns that are not
    conversion columns. *)
Lemma ignore_loop_frame cf timestep r f : ∀ row ign flag row' ign' flag',
  for_each (ignore_step cf timestep r) (row, ign, flag) f = Ok (row', ign', flag') →
  length row' = length row ∧
  (∀ p, Forall (λ e, py_pos (length row) e.1 ≠ Some p) cf → row' !! p = row !! p) ∧
  Forall (λ e, is_Some (py_pos (length row) e.1)) f.
Proof.
  induction f as [|[k v] f IH]; intros row ign flag row' ign' flag' H; simpl in H.
  - injection H as <- <- <-. by split_and!.
  - inv_bind_as H s1 Hstep. destruct s1 as [[row1 ign1] flag1].
    apply IH in H as (Hlen & Hsame & Hcols).
    unfold ignore_step in Hstep. inv_bind_as Hstep m Hm.
    apply matches_ok_column in Hm as Hk.
    assert (length row1 = length row ∧
            ∀ p, Forall (λ e, py_pos (length row) e.1 ≠ Some p) cf →
                 row1 !! p = row !! p) as [Hlen1 Hsame1].
    { destruct m.
      - inv_bind_as Hstep row2 Hconv. injection Hstep as <- <- <-.
        by apply convert_row_frame.
      - by injection Hstep as <- <- <-. }
    rewrite Hlen1 in *. split_and!; [done| |by constructor].
    intros p Hp. by rewrite Hsame, Hsame1.
Qed.

(** Without a matching entry the ignore loop changes nothing. *)
Lemma ignore_loop_no_match cf timestep r f : ∀ row ign flag row' ign' flag',
  matching_entries row f = [] →
  for_each (ignore_step cf timestep r) (row, ign, flag) f = Ok (row', ign', flag') →
  row' = row ∧ ign' = ign ∧ flag' = flag.
Proof.
  induction f as [|e f IH]; intros row ign flag row' ign' flag' Hnone H; simpl in H.
  - by injection H as <- <- <-.
  - inv_bind_as H s1 Hstep. destruct s1 as [[row1 ign1] flag1].
    unfold matching_entries in Hnone. simpl in Hnone.
    destruct (matches_entry row e) eqn:Hm; [done|].
    apply (ignore_step_ok int_float) in Hstep.
    destruct Hstep as [(_ & -> & -> & ->)|(Hm' & _)]; [|congruence].
    by apply IH.
Qed.

(** The ignore loop keeps a dict of the ignore kind in order. *)
Lemma ignore_loop_buckets_ok cf timestep r f : ∀ row ign flag row' ign' flag',
  buckets_ok le (S r) ign →
  for_each (ignore_step cf timestep r) (row, ign, flag) f = Ok (row', ign', flag') →
  buckets_ok le (S r) ign'.
Proof.
  induction f as [|e f IH]; intros row ign flag row' ign' flag' Hok H; simpl in H.
  - by injection H as <- <- <-.
  - inv_bind_as H s1 Hstep. destruct s1 as [[row1 ign1] flag1].
    apply (ignore_step_ok int_float) in Hstep.
    destruct Hstep as [(_ & -> & -> & ->)|(_ & _ & -> & ->)];
      [by eapply IH|].
    eapply IH; [|done]. clear H IH.
    intros ts refs. unfold bucket_add.
    destruct (decide (timestep = ts)) as [<-|Hne].
    + destruct (ign !! timestep) as [l|] eqn:Hl; rewrite lookup_insert_eq; intros [= <-].
      * destruct (Hok _ _ Hl) as (_ & Hsorted & Hbound). split_and!.
        -- by destruct l.
        -- clear Hl. induction Hsorted as [|x l Hsl IHl Hx]; simpl.
           ++ repeat constructor.
           ++ apply Forall_cons in Hbound as [Hxb Hbound].
              constructor; [by apply IHl|].
              apply Forall_app. split; [done|]. constructor; [lia | constructor].
        -- apply Forall_app. split; [done|]. constructor; [lia | constructor].
      * split_and!; [done | repeat constructor | constructor; [lia | constructor]].
    + destruct (ign !! timestep); rewrite lookup_insert_ne by done; apply Hok.
Qed.

(** *** One turn of the row loop, case by case *)

Lemma process_row_cases a st raw st' :
  process_row int_float a st raw = Ok st' →
  ∃ raw' timestep row ign (flag : bool),
    strip_trailing raw = Ok raw' ∧
    getitem raw' (time_col a) = Ok timestep ∧
    for_each (ignore_step (default [] (convert_filter a)) timestep (length (store st)))
      (CStr <$> raw', crowd_ignore_data st, false)
      (default [] (crowd_ignore_filter a)) = Ok (row, ign, flag) ∧
    crowd_ignore_data st' = ign ∧
    ((flag = true ∧ store st' = store st ++ [row] ∧ read_data st' = read_data st) ∨
     (flag = false ∧ negative_id int_float a row = Ok true ∧
      store st' = store st ++ [row] ∧ read_data st' = read_data st) ∨
     (flag = false ∧ negative_id int_float a row = Ok false ∧
      ∃ row2, convert_row (default [] (convert_filter a)) row = Ok row2 ∧
        store st' = store st ++ [row2] ∧
        read_data st' = bucket_add (read_data st) timestep (length (store st)))).
Proof.
  intros H. unfold process_row in H.
  inv_bind_as H raw' Hstrip. inv_bind_as H timestep Htime.
  inv_bind_as H s1 Hloop. destruct s1 as [[row ign] flag].
  exists raw', timestep, row, ign, flag. split_and!; try done.
  - destruct flag; [by injection H as <-|].
    inv_bind_as H u Hvalid. inv_bind_as H negative Hneg.
    destruct negative; [by injection H as <-|].
    inv_bind_as H row2 Hconv. by injection H as <-.
  - destruct flag; [injection H as <-; by left|].
    inv_bind_as H u Hvalid. inv_bind_as H negative Hneg.
    destruct negative.
    + injection H as <-. right. left. by split_and!.
    + inv_bind_as H row2 Hconv. injection H as <-. right. right.
      split_and!; [done..|]. by exists row2.
Qed.

(** The turn of row [i] within the whole loop. *)
Lemma rows_loop_split a rows st i raw :
  for_each (process_row int_float a) no_buckets rows = Ok st →
  rows !! i = Some raw →
  ∃ st1 st2,
    length (store st1) = i ∧
    process_row int_float a st1 raw = Ok st2 ∧
    (∀ ts, count_refs (read_data st1) ts i = 0%nat ∧
           count_refs (crowd_ignore_data st1) ts i = 0%nat) ∧
    (∀ ts, count_refs (read_data st) ts i = count_refs (read_data st2) ts i ∧
           count_refs (crowd_ignore_data st) ts i
           = count_refs (crowd_ignore_data st2) ts i) ∧
    store st !! i = store st2 !! i ∧
    length (store st) = length rows.
Proof.
  intros Hrun Hi. apply lookup_lt_Some in Hi as Hlt.
  rewrite <- (take_drop_middle rows i raw Hi), for_each_app in Hrun.
  inv_bind_as Hrun st1 Hpre. simpl in Hrun. inv_bind_as Hrun st2 Hrow.
  apply rows_loop_frame in Hpre as [(new & Hst1 & Hnew) Hpre'].
  simpl in Hst1. rewrite length_take, Nat.min_l in Hnew by lia.
  assert (length (store st1) = i) as Hlen1 by (by rewrite Hst1).
  destruct (process_row_store _ _ _ _ _ Hrow) as [row Hrow'].
  apply rows_loop_frame in Hrun as [(new2 & Hst & Hnew2) Hpost].
  exists st1, st2. split_and!; try done.
  - intros ts. destruct (Hpre' ts i) as [-> ->].
    { right. simpl. rewrite length_take. lia. }
    by rewrite !count_refs_empty.
  - intros ts. apply Hpost. left. rewrite Hrow', length_app. simpl. lia.
  - rewrite Hst. apply lookup_app_l. rewrite Hrow', length_app. simpl. lia.
  - rewrite Hst, Hrow', !length_app, Hlen1, Hnew2, length_drop. simpl. lia.
Qed.

(** *** Order and bounds of the references *)

Lemma buckets_ok_weaken R n m d :
  (n ≤ m)%nat → buckets_ok R n d → buckets_ok R m d.
Proof.
  intros Hnm Hok ts refs Hrefs. destruct (Hok ts refs Hrefs) as (? & ? & Hb).
  split_and!; [done..|]. eapply Forall_impl; [done|]. simpl. lia.
Qed.

Lemma buckets_ok_append n d timestep :
  buckets_ok lt n d → buckets_ok lt (S n) (bucket_add d timestep n).
Proof.
  intros Hok ts refs. unfold bucket_add.
  destruct (decide (timestep = ts)) as [<-|Hne].
  - destruct (d !! timestep) as [l|] eqn:Hl; rewrite lookup_insert_eq; intros [= <-].
    + destruct (Hok _ _ Hl) as (_ & Hsorted & Hbound). split_and!.
      * by destruct l.
      * clear Hl. induction Hsorted as [|x l Hsl IHl Hx]; simpl.
        -- repeat constructor.
        -- apply Forall_cons in Hbound as [Hxb Hbound].
           constructor; [by apply IHl|].
           apply Forall_app. split; [done|]. constructor; [lia | constructor].
      * apply Forall_app. split.
        -- eapply Forall_impl; [done|]. simpl. lia.
        -- constructor; [lia | constructor].
    + split_and!; [done | repeat constructor | constructor; [lia | constructor]].
  - intros Hrefs.
    assert (d !! ts = Some refs) as Hd.
    { destruct (d !! timestep); by rewrite lookup_insert_ne in Hrefs. }
    exact (buckets_ok_weaken lt n (S n) d (Nat.le_succ_diag_r n) Hok ts refs Hd).
Qed.

Lemma process_row_buckets_ok a st raw st' :
  process_row int_float a st raw = Ok st' →
  buckets_ok lt (length (store st)) (read_data st) →
  buckets_ok le (length (store st)) (crowd_ignore_data st) →
  buckets_ok lt (length (store st')) (read_data st') ∧
  buckets_ok le (length (store st')) (crowd_ignore_data st').
Proof.
  intros Hrow Hread Hign.
  destruct (process_row_store _ _ _ _ _ Hrow) as [row0 Hstore].
  apply process_row_cases in Hrow as
    (raw' & timestep & row & ign & flag & _ & _ & Hloop & -> & Hcase).
  rewrite Hstore, length_app. simpl. rewrite Nat.add_1_r. split.
  - destruct Hcase as [(_ & _ & ->)|[(_ & _ & _ & ->)|(_ & _ & row2 & _ & _ & ->)]].
    + by apply (buckets_ok_weaken lt (length (store st))); [lia|].
    + by apply (buckets_ok_weaken lt (length (store st))); [lia|].
    + by apply buckets_ok_append.
  - eapply ignore_loop_buckets_ok; [|done].
    by apply (buckets_ok_weaken le (length (store st))); [lia|].
Qed.

Lemma rows_loop_buckets_ok a rows : ∀ st st',
  for_each (process_row int_float a) st rows = Ok st' →
  buckets_ok lt (length (store st)) (read_data st) →
  buckets_ok le (length (store st)) (crowd_ignore_data st) →
  buckets_ok lt (length (store st')) (read_data st') ∧
  buckets_ok le (length (store st')) (crowd_ignore_data st').
Proof.
  induction rows as [|raw rows IH]; intros st st' Hrun Hread Hign; simpl in Hrun.
  - by injection Hrun as <-.
  - inv_bind_as Hrun st1 Hrow.
    destruct (process_row_buckets_ok _ _ _ _ Hrow Hread Hign) as [Hread1 Hign1].
    by apply (IH st1).
Qed.

Lemma load_buckets_ok a rows files st :
  _load_simple_text_file int_float a (Rows rows) = (files, Ok st) →
  buckets_ok lt (length rows) (read_data st) ∧
  buckets_ok le (length rows) (crowd_ignore_data st).
Proof.
  intros Hrun. apply load_ok in Hrun.
  assert (length (store st) = length rows) as <-.
  { apply rows_loop_frame in Hrun as [(new & -> & <-) _]. done. }
  apply (rows_loop_buckets_ok a rows no_buckets); [done|..];
    intros ts refs Hrefs; simpl in Hrefs; by rewrite lookup_empty in Hrefs.
Qed.

(** *** What the returned dicts hold *)

(** X1: The lists of the normal dict hold their rows in file order, each row
    at most once; the lists of the ignore dict hold theirs in file order,
    possibly repeated. *)
Theorem buckets_follow_file_order a rows files st :
  _load_simple_text_file int_float a (Rows rows) = (files, Ok st) →
  (∀ timestep refs, read_data st !! timestep = Some refs → StronglySorted lt refs) ∧
  (∀ timestep refs, crowd_ignore_data st !! timestep = Some refs →
     StronglySorted le refs).
Proof.
  intros Hrun. destruct (load_buckets_ok _ _ _ _ Hrun) as [Hread Hign].
  split; intros ts refs Hrefs; [by apply (Hread ts) | by apply (Hign ts)].
Qed.

(** X2: A time token is a key of a returned dict only if the dict has a row
    for it: no key is bound to an empty list. *)
Theorem no_empty_bucket a rows files st timestep :
  _load_simple_text_file int_float a (Rows rows) = (files, Ok st) →
  read_data st !! timestep ≠ Some [] ∧ crowd_ignore_data st !! timestep ≠ Some [].
Proof.
  intros Hrun. destruct (load_buckets_ok _ _ _ _ Hrun) as [Hread Hign].
  split; intros Hnil; [by destruct (Hread _ _ Hnil) | by destruct (Hign _ _ Hnil)].
Qed.

(** The row object of row [i]: as wide as the stripped row, and equal to
    it on every column that is not a conversion column. *)
Lemma row_object_frame a rows files st i raw raw' :
  _load_simple_text_file int_float a (Rows rows) = (files, Ok st) →
  rows !! i = Some raw →
  strip_trailing raw = Ok raw' →
  ∃ row, store st !! i = Some row ∧ length row = length raw' ∧
    ∀ p, Forall (λ e, py_pos (length raw') e.1 ≠ Some p) (default [] (convert_filter a)) →
      row !! p = CStr <$> raw' !! p.
Proof.
  intros Hrun Hi Hstrip. apply load_ok in Hrun.
  destruct (rows_loop_split _ _ _ _ _ Hrun Hi) as
    (st1 & st2 & Hlen1 & Hrow & _ & _ & Hstore & _).
  apply process_row_cases in Hrow as
    (raw2 & timestep & row & ign & flag & Hstrip2 & _ & Hloop & _ & Hcase).
  rewrite Hstrip in Hstrip2. injection Hstrip2 as <-.
  apply ignore_loop_frame in Hloop as (Hlen & Hsame & _).
  rewrite length_fmap in Hlen, Hsame.
  assert (∀ row2, store st2 = store st1 ++ [row2] → store st !! i = Some row2) as Hlook.
  { intros row2 Hst2. rewrite Hstore, Hst2, lookup_app_r, Hlen1, Nat.sub_diag by lia.
    done. }
  destruct Hcase as [(_ & Hst2 & _)|[(_ & _ & Hst2 & _)|(_ & _ & row2 & Hconv & Hst2 & _)]].
  - exists row. split_and!; [by apply Hlook | done |].
    intros p Hp. rewrite Hsame by done. by rewrite list_lookup_fmap.
  - exists row. split_and!; [by apply Hlook | done |].
    intros p Hp. rewrite Hsame by done. by rewrite list_lookup_fmap.
  - apply convert_row_frame in Hconv as [Hlen2 Hsame2].
    exists row2. split_and!; [by apply Hlook | congruence |].
    intros p Hp. rewrite Hsame2, Hsame by (by rewrite ?Hlen).
    by rewrite list_lookup_fmap.
Qed.

(** X6: The stored row of every input row has as many fields as the stripped
    input row, and every field whose position is not a key of
    [convert_filter] is the text read from the file. *)
Theorem conversion_keeps_other_columns a rows files st i raw raw' :
  _load_simple_text_file int_float a (Rows rows) = (files, Ok st) →
  rows !! i = Some raw →
  strip_trailing raw = Ok raw' →
  ∃ row, store st !! i = Some row ∧ length row = length raw' ∧
    ∀ p, Forall (λ e, py_pos (length raw') e.1 ≠ Some p) (default [] (convert_filter a)) →
      row !! p = CStr <$> raw' !! p.
Proof. apply row_object_frame. Qed.

(** X3: Every reference of a returned dict is to a row of the file whose
    time token is the key it is under, and the store has its row object. *)
Theorem bucket_references_are_rows a rows files st timestep refs i :
  _load_simple_text_file int_float a (Rows rows) = (files, Ok st) →
  read_data st !! timestep = Some refs ∨ crowd_ignore_data st !! timestep = Some refs →
  i ∈ refs →
  ∃ raw raw' row,
    rows !! i = Some raw ∧ strip_trailing raw = Ok raw' ∧
    getitem raw' (time_col a) = Ok timestep ∧
    store st !! i = Some row ∧ length row = length raw'.
Proof.
  intros Hrun Hrefs Hi.
  destruct (load_buckets_ok _ _ _ _ Hrun) as [Hread Hign].
  assert (i < length rows)%nat as Hlt.
  { destruct Hrefs as [Hrefs|Hrefs];
      [destruct (Hread _ _ Hrefs) as (_ & _ & Hb) | destruct (Hign _ _ Hrefs) as (_ & _ & Hb)];
      rewrite Forall_forall in Hb; by apply Hb. }
  destruct (lookup_lt_is_Some_2 rows i Hlt) as [raw Hraw].
  destruct (rows_loop_at _ _ _ _ _ _ (load_ok _ _ _ _ _ Hrun) Hraw) as
    (raw' & ts & kept & n & Hstrip & Htime & Hcr & Hci & _).
  destruct (row_object_frame _ _ _ _ _ _ _ Hrun Hraw Hstrip)
    as (row & Hrow & Hlen & _).
  exists raw, raw', row. split_and!; try done.
  assert (ts = timestep) as ->; [|done].
  destruct (decide (ts = timestep)) as [|Hne]; [done|]. exfalso.
  destruct Hrefs as [Hrefs|Hrefs].
  - assert (0 < count_refs (read_data st) timestep i)%nat as Hpos
      by (apply count_refs_elem; eauto).
    rewrite Hcr, bool_decide_eq_false_2 in Hpos by done. simpl in Hpos. lia.
  - assert (0 < count_refs (crowd_ignore_data st) timestep i)%nat as Hpos
      by (apply count_refs_elem; eauto).
    rewrite Hci, bool_decide_eq_false_2 in Hpos by done. lia.
Qed.

(** X4: A row that matches no entry of [crowd_ignore_filter] and passes the
    id test is referenced exactly once from the normal dict, under its
    time token, and not at all from the ignore dict. *)
Theorem unfiltered_row_kept_once a rows files st i raw raw' timestep :
  _load_simple_text_file int_float a (Rows rows) = (files, Ok st) →
  rows !! i = Some raw →
  strip_trailing raw = Ok raw' →
  getitem raw' (time_col a) = Ok timestep →
  matching_entries (CStr <$> raw') (default [] (crowd_ignore_filter a)) = [] →
  negative_id int_float a (CStr <$> raw') = Ok false →
  (∀ ts, count_refs (read_data st) ts i = if bool_decide (timestep = ts) then 1%nat else 0%nat) ∧
  (∀ ts, count_refs (crowd_ignore_data st) ts i = 0%nat).
Proof.
  intros Hrun Hi Hstrip Htime Hnone Hneg. apply load_ok in Hrun.
  destruct (rows_loop_split _ _ _ _ _ Hrun Hi) as
    (st1 & st2 & Hlen1 & Hrow & Hzero & Hsame & _ & _).
  apply process_row_cases in Hrow as
    (raw2 & ts2 & row & ign & flag & Hstrip2 & Htime2 & Hloop & Hign & Hcase).
  rewrite Hstrip in Hstrip2. injection Hstrip2 as <-.
  rewrite Htime in Htime2. injection Htime2 as <-.
  apply ignore_loop_no_match in Hloop as (-> & -> & ->); [|done].
  destruct Hcase as [(? & _)|[(_ & Hneg' & _)|(_ & _ & row2 & _ & _ & Hread)]];
    [done | congruence |].
  split; intros ts.
  - destruct (Hsame ts) as [-> _]. rewrite Hread, count_refs_bucket_add.
    destruct (Hzero ts) as [-> _]. rewrite Hlen1.
    destruct (decide (timestep = ts)) as [->|Hne].
    + by rewrite !bool_decide_eq_true_2.
    + by rewrite !bool_decide_eq_false_2 by (by intros [? _] || done).
  - destruct (Hsame ts) as [_ ->]. rewrite Hign. by destruct (Hzero ts) as [_ ->].
Qed.

(** X5: A row that matches no entry of [crowd_ignore_filter] and fails the id
    test is referenced from neither dict. *)
Theorem negative_id_row_dropped a rows files st i raw raw' :
  _load_simple_text_file int_float a (Rows rows) = (files, Ok st) →
  rows !! i = Some raw →
  strip_trailing raw = Ok raw' →
  matching_entries (CStr <$> raw') (default [] (crowd_ignore_filter a)) = [] →
  negative_id int_float a (CStr <$> raw') = Ok true →
  ∀ ts, count_refs (read_data st) ts i = 0%nat ∧
        count_refs (crowd_ignore_data st) ts i = 0%nat.
Proof.
  intros Hrun Hi Hstrip Hnone Hneg ts. apply load_ok in Hrun.
  destruct (rows_loop_split _ _ _ _ _ Hrun Hi) as
    (st1 & st2 & Hlen1 & Hrow & Hzero & Hsame & _ & _).
  apply process_row_cases in Hrow as
    (raw2 & ts2 & row & ign & flag & Hstrip2 & Htime2 & Hloop & Hign & Hcase).
  rewrite Hstrip in Hstrip2. injection Hstrip2 as <-.
  apply ignore_loop_no_match in Hloop as (-> & -> & ->); [|done].
  destruct Hcase as [(? & _)|[(_ & _ & _ & Hread)|(_ & Hneg' & _)]];
    [done | | congruence].
  destruct (Hsame ts) as [-> ->]. rewrite Hread, Hign. apply Hzero.
Qed.

(** X7: A call that returns found, in every row, a last field, the time
    column and the column of every entry of [crowd_ignore_filter], and,
    in the rows that match none of these entries, the column of every
    entry of [valid_filter]. *)
Theorem returned_call_read_every_column a rows files st i raw :
  _load_simple_text_file int_float a (Rows rows) = (files, Ok st) →
  rows !! i = Some raw →
  raw ≠ [] ∧
  ∃ raw', strip_trailing raw = Ok raw' ∧
    has_column raw' (time_col a) ∧
    Forall (λ e, has_column raw' e.1) (default [] (crowd_ignore_filter a)) ∧
    (matching_entries (CStr <$> raw') (default [] (crowd_ignore_filter a)) = [] →
     Forall (λ e, has_column raw' e.1) (default [] (valid_filter a))).
Proof.
  intros Hrun Hi. apply load_ok in Hrun.
  destruct (rows_loop_split _ _ _ _ _ Hrun Hi) as (st1 & st2 & _ & Hrow & _).
  unfold process_row in Hrow.
  inv_bind_as Hrow raw' Hstrip. inv_bind_as Hrow timestep Htime.
  inv_bind_as Hrow s1 Hloop. destruct s1 as [[row ign] flag].
  split; [by intros -> |]. exists raw'. split_and!; [done| | |].
  - apply getitem_ok_pos in Htime as (p & Hp & _). unfold has_column. eauto.
  - apply ignore_loop_frame in Hloop as (_ & _ & Hcols).
    by rewrite length_fmap in Hcols.
  - intros Hnone. apply ignore_loop_no_match in Hloop as (-> & -> & ->); [|done].
    inv_bind_as Hrow u Hvalid. clear Hrow.
    destruct (valid_filter a) as [vf|]; simpl; [|constructor].
    revert Hvalid. generalize tt at 1. clear.
    induction vf as [|[k v] vf IH]; intros u0 H; simpl in H; [constructor|].
    inv_bind_as H u1 Hstep. unfold valid_step in Hstep. inv_bind_as Hstep m Hm.
    apply matches_ok_column in Hm. rewrite length_fmap in Hm.
    constructor; [done | by eapply IH].
Qed.


End TextFileMore.

(** *** The sample file *)

Section TextSampleRuns.

Import TextFile TextSample.

Local Abbreviation load := (_load_simple_text_file int_float_decimal).

(** What the call returns on the sample file. *)
Example sample_run :
  ∃ st, load sample_args (Rows sample_rows)
        = ({| fp := Closed; archive := NotOpened |}, Ok st) ∧
  read_data st = {[ "0" := [0; 3]%nat ]} ∧
  crowd_ignore_data st = {[ "1" := [2%nat] ]} ∧
  store st = [[CStr "0"; CStr "1"; CInt 1]; [CStr "0"; CStr "-3"; CStr "car"];
              [CStr "1"; CStr "2"; CInt 9]; [CStr "0"; CStr "4"; CInt 1]].
Proof. eexists. split_and!; reflexivity. Qed.

Lemma buckets_follow_file_order_witness :
  ∃ st, (load sample_args (Rows sample_rows)).2 = Ok st ∧
  (∀ timestep refs, read_data st !! timestep = Some refs → StronglySorted lt refs) ∧
  (∀ timestep refs, crowd_ignore_data st !! timestep = Some refs →
     StronglySorted le refs).
Proof.
  eexists. split; [reflexivity|].
  apply (buckets_follow_file_order int_float_decimal sample_args sample_rows
           (load sample_args (Rows sample_rows)).1).
  reflexivity.
Defined.

Lemma no_empty_bucket_witness :
  ∃ st, (load sample_args (Rows sample_rows)).2 = Ok st ∧
  read_data st !! "1" ≠ Some [] ∧ crowd_ignore_data st !! "1" ≠ Some [].
Proof.
  eexists. split; [reflexivity|].
  apply (no_empty_bucket int_float_decimal sample_args sample_rows
           (load sample_args (Rows sample_rows)).1).
  reflexivity.
Defined.

Lemma conversion_keeps_other_columns_witness :
  ∃ st, (load sample_args (Rows sample_rows)).2 = Ok st ∧
  ∃ row, store st !! 2%nat = Some row ∧ length row = 3%nat ∧
    ∀ p, Forall (λ e, py_pos 3 e.1 ≠ Some p) (default [] (convert_filter sample_args)) →
      row !! p = CStr <$> ["1"; "2"; "Crowd"] !! p.
Proof.
  eexists. split; [reflexivity|].
  apply (conversion_keeps_other_columns int_float_decimal sample_args sample_rows
           (load sample_args (Rows sample_rows)).1 _ 2%nat
           ["1"; "2"; "Crowd"; ""] ["1"; "2"; "Crowd"]); reflexivity.
Defined.

Lemma bucket_references_are_rows_witness :
  ∃ st, (load sample_args (Rows sample_rows)).2 = Ok st ∧
  ∃ raw raw' row,
    sample_rows !! 3%nat = Some raw ∧ strip_trailing raw = Ok raw' ∧
    getitem raw' (time_col sample_args) = Ok "0" ∧
    store st !! 3%nat = Some row ∧ length row = length raw'.
Proof.
  eexists. split; [reflexivity|].
  apply (bucket_references_are_rows int_float_decimal sample_args sample_rows
           (load sample_args (Rows sample_rows)).1 _ "0" [0; 3]%nat 3%nat).
  - reflexivity.
  - left. reflexivity.
  - apply list_elem_of_further, list_elem_of_here.
Defined.

Lemma unfiltered_row_kept_once_witness :
  ∃ st, (load sample_args (Rows sample_rows)).2 = Ok st ∧
  (∀ ts, count_refs (read_data st) ts 3
         = if bool_decide ("0" = ts) then 1%nat else 0%nat) ∧
  (∀ ts, count_refs (crowd_ignore_data st) ts 3 = 0%nat).
Proof.
  eexists. split; [reflexivity|].
  apply (unfiltered_row_kept_once int_float_decimal sample_args sample_rows
           (load sample_args (Rows sample_rows)).1 _ 3%nat
           ["0"; "4"; "Car"] ["0"; "4"; "Car"] "0"); reflexivity.
Defined.

Lemma negative_id_row_dropped_witness :
  ∃ st, (load sample_args (Rows sample_rows)).2 = Ok st ∧
  ∀ ts, count_refs (read_data st) ts 1 = 0%nat ∧
        count_refs (crowd_ignore_data st) ts 1 = 0%nat.
Proof.
  eexists. split; [reflexivity|].
  apply (negative_id_row_dropped int_float_decimal sample_args sample_rows
           (load sample_args (Rows sample_rows)).1 _ 1%nat
           ["0"; "-3"; "car"] ["0"; "-3"; "car"]); reflexivity.
Defined.

Lemma returned_call_read_every_column_witness :
  ["1"; "2"; "Crowd"; ""] ≠ [] ∧
  ∃ raw', strip_trailing ["1"; "2"; "Crowd"; ""] = Ok raw' ∧
    has_column raw' (time_col sample_args) ∧
    Forall (λ e, has_column raw' e.1) (default [] (crowd_ignore_filter sample_args)) ∧
    (matching_entries (CStr <$> raw') (default [] (crowd_ignore_filter sample_args)) = [] →
     Forall (λ e, has_column raw' e.1) (default [] (valid_filter sample_args))).
Proof.
  apply (returned_call_read_every_column int_float_decimal sample_args sample_rows
           (load sample_args (Rows sample_rows)).1
           (match (load sample_args (Rows sample_rows)).2 with
            | Ok st => st | Raise _ => no_buckets end) 2%nat); reflexivity.
Defined.

Lemma valid_filter_excludes_nothing_witness :
  ∃ files st,
    load plain_args (Rows sample_rows) = (files, Ok st) ∧
    load (without_valid_filter plain_args) (Rows sample_rows) = (files, Ok st).
Proof.
  do 2 eexists. split; [reflexivity|].
  apply (valid_filter_excludes_nothing int_float_decimal plain_args sample_rows).
  reflexivity.
Defined.


(** The zipped call on the sample file: it returns, [fp] is closed, the
    archive is not. *)
Example zipped_run :
  ∃ st, load plain_zipped_args (Rows sample_rows)
        = ({| fp := Closed; archive := Opened |}, Ok st).
Proof. by eexists. Qed.

End TextSampleRuns.

(** ** More on sequence records *)

Section RawSeqMore.

Import RawSeq.

Context {Det Sim : Type}.

Variable _load_raw_file : string → string → bool → res (gmap string (value Det Sim)).
Variable _calculate_similarities : list Det → list Det → res Sim.

Local Abbreviation record := (gmap string (value Det Sim)).
Local Abbreviation get_raw_seq_data :=
  (get_raw_seq_data Det Sim _load_raw_file _calculate_similarities).
Local Abbreviation similarity_step := (similarity_step Det Sim _calculate_similarities).

(** X11: [zip] stops at the shorter detection list: the returned record has one
    similarity matrix per timestep that both lists have, and each is what
    the similarity method returned on the detections of that timestep. *)
Theorem similarity_scores_follow_zip tracker seq (raw_gt raw_tr : record)
    gt_dets tracker_dets raw_data :
  _load_raw_file tracker seq true = Ok raw_gt →
  _load_raw_file tracker seq false = Ok raw_tr →
  merge Det Sim raw_gt raw_tr !! "gt_dets" = Some (VDets gt_dets) →
  merge Det Sim raw_gt raw_tr !! "tracker_dets" = Some (VDets tracker_dets) →
  get_raw_seq_data tracker seq = Ok raw_data →
  ∃ similarity_scores,
    raw_data !! "similarity_scores" = Some (VSims similarity_scores) ∧
    length similarity_scores = min (length gt_dets) (length tracker_dets) ∧
    ∀ t m, similarity_scores !! t = Some m →
      ∃ g d, gt_dets !! t = Some g ∧ tracker_dets !! t = Some d ∧
             _calculate_similarities g d = Ok m.
Proof.
  intros Hgt Htr Hg Hd Hrun.
  rewrite (get_raw_seq_data_ok _ _ _ _ _ _ _ _ Hgt Htr Hg Hd) in Hrun.
  apply bind_ok in Hrun as (sims & Hsims & Hrun). injection Hrun as <-.
  apply similarity_loop_ok in Hsims as (new & -> & Hlen & Hnew). simpl.
  exists new. split_and!.
  - by rewrite lookup_insert_eq.
  - by rewrite Hlen, length_zip_with.
  - intros t m Ht.
    assert (t < length (zip gt_dets tracker_dets))%nat as Hlt.
    { rewrite <- Hlen. by eapply lookup_lt_Some. }
    destruct (lookup_lt_is_Some_2 _ _ Hlt) as [[g d] Hpair].
    destruct (Hnew t g d Hpair) as (m' & Hm' & Hnt).
    rewrite Ht in Hnt. injection Hnt as <-.
    apply lookup_zip_with_Some in Hpair as (g' & d' & [= <- <-] & ? & ?).
    by exists g, d.
Qed.

(** The fields of the returned record. *)
Lemma returned_record_lookup tracker seq (raw_gt raw_tr : record) raw_data key :
  _load_raw_file tracker seq true = Ok raw_gt →
  _load_raw_file tracker seq false = Ok raw_tr →
  get_raw_seq_data tracker seq = Ok raw_data →
  is_Some (raw_data !! "similarity_scores") ∧
  (key ≠ "similarity_scores" →
   raw_data !! key = match raw_gt !! key with
                     | Some v => Some v
                     | None => raw_tr !! key
                     end).
Proof.
  intros Hgt Htr Hrun. unfold RawSeq.get_raw_seq_data in Hrun.
  rewrite Hgt, Htr in Hrun. simpl in Hrun.
  apply bind_ok in Hrun as (gd & _ & Hrun). apply bind_ok in Hrun as (td & _ & Hrun).
  apply bind_ok in Hrun as (sims & _ & Hrun). injection Hrun as <-. split.
  - rewrite lookup_insert_eq. eauto.
  - intros Hne. rewrite lookup_insert_ne by done. apply merge_lookup.
Qed.

(** X12: The returned record has every field of the two loaded records, the
    ground-truth value where both have the field, and on top of them the
    similarity scores. *)
Theorem returned_record_fields tracker seq (raw_gt raw_tr : record) raw_data key :
  _load_raw_file tracker seq true = Ok raw_gt →
  _load_raw_file tracker seq false = Ok raw_tr →
  get_raw_seq_data tracker seq = Ok raw_data →
  is_Some (raw_data !! "similarity_scores") ∧
  (key ≠ "similarity_scores" →
   raw_data !! key = match raw_gt !! key with
                     | Some v => Some v
                     | None => raw_tr !! key
                     end).
Proof. apply returned_record_lookup. Qed.

(** The similarity loop stops at the first call that raises. *)
Lemma similarity_loop_raises pairs : ∀ acc t g d e,
  pairs !! t = Some (g, d) →
  _calculate_similarities g d = Raise e →
  (∀ t' g' d', (t' < t)%nat → pairs !! t' = Some (g', d') →
     is_ok (_calculate_similarities g' d') = true) →
  for_each similarity_step acc pairs = Raise e.
Proof.
  induction pairs as [|[g0 d0] pairs IH]; intros acc t g d e Ht Hraise Hbefore.
  - by rewrite lookup_nil in Ht.
  - simpl. unfold RawSeq.similarity_step at 1. simpl. destruct t as [|t].
    + injection Ht as -> ->. by rewrite Hraise.
    + specialize (Hbefore 0%nat g0 d0 (Nat.lt_0_succ t) eq_refl) as H0.
      destruct (_calculate_similarities g0 d0) as [m|]; [simpl|done].
      apply (IH _ t g d); [done..|].
      intros t' g' d' Hlt. apply (Hbefore (S t')). lia.
Qed.

(** X13: An exception of the similarity method leaves the call as it is, at
    the first timestep where the method raises. *)
Theorem similarity_error_propagates tracker seq (raw_gt raw_tr : record)
    gt_dets tracker_dets t g d e :
  _load_raw_file tracker seq true = Ok raw_gt →
  _load_raw_file tracker seq false = Ok raw_tr →
  merge Det Sim raw_gt raw_tr !! "gt_dets" = Some (VDets gt_dets) →
  merge Det Sim raw_gt raw_tr !! "tracker_dets" = Some (VDets tracker_dets) →
  gt_dets !! t = Some g →
  tracker_dets !! t = Some d →
  _calculate_similarities g d = Raise e →
  (∀ t' g' d', (t' < t)%nat → gt_dets !! t' = Some g' → tracker_dets !! t' = Some d' →
     is_ok (_calculate_similarities g' d') = true) →
  get_raw_seq_data tracker seq = Raise e.
Proof.
  intros Hgt Htr Hg Hd Hgt_t Htr_t Hraise Hbefore.
  rewrite (get_raw_seq_data_ok _ _ _ _ _ _ _ _ Hgt Htr Hg Hd).
  rewrite (similarity_loop_raises (zip gt_dets tracker_dets) [] t g d e); [done| |done|].
  - apply lookup_zip_with_Some. eauto.
  - intros t' g' d' Hlt Hpair.
    apply lookup_zip_with_Some in Hpair as (g2 & d2 & [= <- <-] & ? & ?). eauto.
Qed.

(** X14: What leaves the call before the similarity loop starts: the exception
    of the ground-truth load, else that of the tracker load, else a
    [KeyError] for ['gt_dets'], else one for ['tracker_dets']. *)
Theorem errors_before_similarities tracker seq :
  (∀ e, _load_raw_file tracker seq true = Raise e →
        get_raw_seq_data tracker seq = Raise e) ∧
  (∀ raw_gt e, _load_raw_file tracker seq true = Ok raw_gt →
        _load_raw_file tracker seq false = Raise e →
        get_raw_seq_data tracker seq = Raise e) ∧
  (∀ raw_gt raw_tr, _load_raw_file tracker seq true = Ok raw_gt →
        _load_raw_file tracker seq false = Ok raw_tr →
        raw_gt !! "gt_dets" = None → raw_tr !! "gt_dets" = None →
        get_raw_seq_data tracker seq = Raise (KeyError "gt_dets")) ∧
  (∀ raw_gt raw_tr gt_dets, _load_raw_file tracker seq true = Ok raw_gt →
        _load_raw_file tracker seq false = Ok raw_tr →
        merge Det Sim raw_gt raw_tr !! "gt_dets" = Some (VDets gt_dets) →
        raw_gt !! "tracker_dets" = None → raw_tr !! "tracker_dets" = None →
        get_raw_seq_data tracker seq = Raise (KeyError "tracker_dets")).
Proof.
  unfold RawSeq.get_raw_seq_data. split_and!.
  - by intros e ->.
  - by intros raw_gt e -> ->.
  - intros raw_gt raw_tr -> -> Hg Ht. simpl. unfold dets_field, field.
    by rewrite (merge_lookup _ _ "gt_dets"), Hg, Ht.
  - intros raw_gt raw_tr gt_dets -> -> Hg Hd Ht. simpl. unfold dets_field, field.
    rewrite Hg. simpl. by rewrite (merge_lookup _ _ "tracker_dets"), Hd, Ht.
Qed.

End RawSeqMore.

(** *** More on the identity check *)

Section UniqueIdsMore.

Import RawSeq.

Context {Det Sim : Type}.

Variable str_object : value Det Sim → string.

Local Abbreviation record := (gmap string (value Det Sim)).
Local Abbreviation check_side := (check_side Det Sim str_object).
Local Abbreviation check_from := (check_from Det Sim str_object).
Local Abbreviation _check_unique_ids := (_check_unique_ids Det Sim str_object).

(** One side of one timestep, with or without a sequence name. *)
Lemma check_side_cases (data : record) message t ids :
  check_side data message t ids =
  if decide (NoDup ids) then Ok tt
  else seq ← field Det Sim data "seq"; Raise (Exception (message (py_str Det Sim str_object seq) t)).
Proof.
  unfold RawSeq.check_side. destruct ids as [|x ids].
  - rewrite bool_decide_eq_false_2 by (simpl; lia).
    rewrite decide_True; [done | constructor].
  - rewrite bool_decide_eq_true_2 by (simpl; lia).
    destruct (decide (NoDup (x :: ids))) as [Hn|Hn].
    + rewrite bool_decide_eq_false_2; [done|].
      intros Hmax. apply Hmax. by apply duplicate_test.
    + rewrite bool_decide_eq_true_2; [done|].
      intros Hmax. apply Hn. by apply duplicate_test.
Qed.

Lemma check_from_passes (data : record) pairs : ∀ t0,
  check_from data t0 pairs = Ok tt ↔ Forall (λ p, NoDup p.1 ∧ NoDup p.2) pairs.
Proof.
  induction pairs as [|[g d] pairs IH]; intros t0; simpl.
  - split; [constructor | done].
  - rewrite !check_side_cases.
    destruct (decide (NoDup d)) as [Hd|Hd]; simpl.
    + destruct (decide (NoDup g)) as [Hg|Hg]; simpl.
      * rewrite IH. split; [by constructor | by intros [_ ?]%Forall_cons].
      * split; [by destruct (field _ _ _ _) | by intros [[? _] _]%Forall_cons].
    + split; [by destruct (field _ _ _ _) | by intros [[_ ?] _]%Forall_cons].
Qed.

(** X15: The check returns silently exactly when, at every timestep that both
    id lists have, neither side repeats an id.  It needs no sequence name
    for that, and does not look at a timestep only one side has. *)
Theorem check_unique_ids_passes_iff (data : record) gt_ids tracker_ids :
  data !! "gt_ids" = Some (VArrays gt_ids) →
  data !! "tracker_ids" = Some (VArrays tracker_ids) →
  _check_unique_ids data = Ok tt ↔
  ∀ t gt_ids_t tracker_ids_t,
    gt_ids !! t = Some gt_ids_t → tracker_ids !! t = Some tracker_ids_t →
    NoDup gt_ids_t ∧ NoDup tracker_ids_t.
Proof.
  intros Hg Hd.
  assert (_check_unique_ids data = check_from data 0%nat (zip gt_ids tracker_ids)) as ->.
  { unfold RawSeq._check_unique_ids, arrays_field, field. by rewrite Hg, Hd. }
  rewrite check_from_passes, Forall_lookup. split.
  - intros Hall t g d Hgt Hdt. apply (Hall t (g, d)).
    apply lookup_zip_with_Some. eauto.
  - intros Hall t [g d] Hpair.
    apply lookup_zip_with_Some in Hpair as (g' & d' & [= <- <-] & ? & ?).
    by apply (Hall t).
Qed.

Lemma check_from_no_seq (data : record) pairs : ∀ t0,
  data !! "seq" = None →
  ¬ Forall (λ p, NoDup p.1 ∧ NoDup p.2) pairs →
  check_from data t0 pairs = Raise (KeyError "seq").
Proof.
  induction pairs as [|[g d] pairs IH]; intros t0 Hseq Hdup; simpl.
  - destruct Hdup. constructor.
  - rewrite !check_side_cases. unfold field. rewrite Hseq.
    destruct (decide (NoDup d)) as [Hd|Hd]; simpl; [|done].
    destruct (decide (NoDup g)) as [Hg|Hg]; simpl; [|done].
    apply IH; [done|]. intros Hall. apply Hdup. by constructor.
Qed.

(** X16: On a record without a sequence name, a repeated id still stops the
    check, with a [KeyError] for ['seq'] instead of the message. *)
Theorem duplicate_without_seq_name (data : record) gt_ids tracker_ids t gt_ids_t tracker_ids_t :
  data !! "gt_ids" = Some (VArrays gt_ids) →
  data !! "tracker_ids" = Some (VArrays tracker_ids) →
  data !! "seq" = None →
  gt_ids !! t = Some gt_ids_t →
  tracker_ids !! t = Some tracker_ids_t →
  ¬ NoDup gt_ids_t ∨ ¬ NoDup tracker_ids_t →
  _check_unique_ids data = Raise (KeyError "seq").
Proof.
  intros Hg Hd Hseq Hgt Hdt Hdup.
  assert (_check_unique_ids data = check_from data 0%nat (zip gt_ids tracker_ids)) as ->.
  { unfold RawSeq._check_unique_ids, arrays_field, field. by rewrite Hg, Hd. }
  apply check_from_no_seq; [done|]. rewrite Forall_lookup. intros Hall.
  destruct (Hall t (gt_ids_t, tracker_ids_t)) as [? ?].
  { apply lookup_zip_with_Some. eauto. }
  simpl in *. by destruct Hdup.
Qed.

(** The check reads three fields of the record and nothing else. *)
Lemma check_unique_ids_ext (data1 data2 : record) :
  data1 !! "gt_ids" = data2 !! "gt_ids" →
  data1 !! "tracker_ids" = data2 !! "tracker_ids" →
  data1 !! "seq" = data2 !! "seq" →
  _check_unique_ids data1 = _check_unique_ids data2.
Proof.
  intros Hg Hd Hseq. unfold RawSeq._check_unique_ids, arrays_field, field.
  rewrite Hg, Hd. destruct (data2 !! "gt_ids") as [[]|]; simpl; try done.
  destruct (data2 !! "tracker_ids") as [[]|]; simpl; try done.
  generalize 0%nat. generalize (zip per_timestep per_timestep0).
  induction l as [|[g d] l IH]; intros t0; simpl; [done|].
  rewrite !check_side_cases. unfold field. rewrite Hseq, IH. done.
Qed.

(** X17: Attaching the similarity scores does not change the verdict of the
    check: on the record the orchestrator returns, it does what it does
    on the merge of the two loaded records. *)
Theorem check_after_get_raw_seq_data
    (_load_raw_file : string → string → bool → res record)
    (_calculate_similarities : list Det → list Det → res Sim)
    tracker seq raw_gt raw_tr raw_data :
  _load_raw_file tracker seq true = Ok raw_gt →
  _load_raw_file tracker seq false = Ok raw_tr →
  get_raw_seq_data Det Sim _load_raw_file _calculate_similarities tracker seq
  = Ok raw_data →
  _check_unique_ids raw_data = _check_unique_ids (merge Det Sim raw_gt raw_tr).
Proof.
  intros Hgt Htr Hrun.
  assert (∀ key, key ≠ "similarity_scores" →
            raw_data !! key = merge Det Sim raw_gt raw_tr !! key) as Hsame.
  { intros key Hne.
    destruct (returned_record_lookup _ _ _ _ _ _ _ key Hgt Htr Hrun) as [_ Heq].
    rewrite Heq by done. by rewrite merge_lookup. }
  apply check_unique_ids_ext; by apply Hsame.
Qed.

End UniqueIdsMore.

(** ** More on the box overlap *)

Section BoxMore.

Import Boxes.

Local Open Scope float_scope.

(** *** The substring test *)

Lemma append_empty (s : string) : "" +:+ s = s.
Proof. reflexivity. Qed.

Lemma append_cons c (s t : string) : String c s +:+ t = String c (s +:+ t).
Proof. reflexivity. Qed.

Lemma prefix_occurs (a b : string) :
  String.prefix a b = true ↔ ∃ after, b = a +:+ after.
Proof.
  revert b. induction a as [|c a IH]; intros b.
  - split; [intros _; by exists b | intros _; by destruct b].
  - destruct b as [|c' b].
    { split; [done | intros [after H]; by rewrite append_cons in H]. }
    change (String.prefix (String c a) (String c' b))
      with (if ascii_dec c c' then String.prefix a b else false).
    destruct (ascii_dec c c') as [<-|Hne].
    + rewrite IH. split; intros [after H]; exists after.
      * by rewrite append_cons, H.
      * rewrite append_cons in H. by injection H.
    + split; [done|]. intros [after H]. rewrite append_cons in H.
      injection H. congruence.
Qed.

(** [str_in] decides [occurs_in]. *)
Lemma str_in_occurs (a b : string) : str_in a b = true ↔ occurs_in a b.
Proof.
  unfold occurs_in. induction b as [|c b IH].
  - change (str_in a "") with (String.prefix a "" || false).
    rewrite orb_false_r, prefix_occurs. split.
    + intros [after H]. by exists "", after.
    + intros (before & after & H). exists after.
      destruct before as [|c before]; [by rewrite append_empty in H|].
      by rewrite append_cons in H.
  - change (str_in a (String c b)) with (String.prefix a (String c b) || str_in a b).
    rewrite orb_true_iff, prefix_occurs, IH. split.
    + intros [[after H]|(before & after & H)].
      * by exists "", after.
      * exists (String c before), after. by rewrite append_cons, H.
    + intros (before & after & H). destruct before as [|c' before].
      * left. exists after. by rewrite append_empty in H.
      * right. rewrite append_cons in H. injection H as _ H. by exists before, after.
Qed.

(** X18: The call takes a format token exactly when it occurs in ['xywh'] or in
    ['x0y0x1y1'], and raises the "not implemented" exception with the
    token otherwise. *)
Theorem box_format_tokens bboxes1 bboxes2 box_format do_ioa :
  (is_ok (_calculate_box_ious bboxes1 bboxes2 box_format do_ioa) = true ↔
   occurs_in box_format "xywh" ∨ occurs_in box_format "x0y0x1y1") ∧
  (is_ok (_calculate_box_ious bboxes1 bboxes2 box_format do_ioa) = false →
   _calculate_box_ious bboxes1 bboxes2 box_format do_ioa
   = Raise (Exception ("box_format " +:+ box_format +:+ " is not implemented"))).
Proof.
  split.
  - rewrite box_format_accepted, orb_true_iff. by rewrite !str_in_occurs.
  - unfold _calculate_box_ious.
    generalize (str_in box_format "xywh"), (str_in box_format "x0y0x1y1").
    by intros [] []; destruct do_ioa.
Qed.

(** *** Dimensions and formats *)

(** Rows and columns of the returned matrix. *)
Lemma box_ious_rows_columns bboxes1 bboxes2 box_format do_ioa m :
  _calculate_box_ious bboxes1 bboxes2 box_format do_ioa = Ok m →
  shape m = (length bboxes1, length bboxes2) ∧
  length (entries m) = length bboxes1 ∧
  Forall (λ row, length row = length bboxes2) (entries m).
Proof.
  unfold _calculate_box_ious.
  generalize (str_in box_format "xywh"), (str_in box_format "x0y0x1y1").
  intros xywh corners Hrun.
  destruct xywh, corners, do_ioa; try discriminate; injection Hrun as <-;
    cbn [shape entries]; rewrite ?length_fmap; (split_and!; [done..|]);
    apply Forall_fmap, Forall_true; intros b; simpl; by rewrite ?length_fmap.
Qed.

(** X19: The returned matrix has one row per box of the first array and one
    entry per box of the second array in each row. *)
Theorem calculate_box_ious_dimensions bboxes1 bboxes2 box_format do_ioa m :
  _calculate_box_ious bboxes1 bboxes2 box_format do_ioa = Ok m →
  shape m = (length bboxes1, length bboxes2) ∧
  length (entries m) = length bboxes1 ∧
  Forall (λ row, length row = length bboxes2) (entries m).
Proof. apply box_ious_rows_columns. Qed.

(** X20: The [xywh] format gives what the corner format gives on the boxes
    turned into corners. *)
Theorem xywh_as_corners bboxes1 bboxes2 do_ioa :
  _calculate_box_ious bboxes1 bboxes2 "xywh" do_ioa =
  _calculate_box_ious (to_corners <$> bboxes1) (to_corners <$> bboxes2) "x0y0x1y1" do_ioa.
Proof.
  unfold _calculate_box_ious.
  change (str_in "xywh" "xywh") with true.
  change (str_in "x0y0x1y1" "xywh") with false.
  change (str_in "x0y0x1y1" "x0y0x1y1") with true.
  cbn [negb mbind res_bind]. by rewrite !length_fmap.
Qed.

(** *** Signs *)

















(** X22: A pair of boxes whose intersection is zero scores exactly 0: always
    in IoA mode, and in IoU mode unless the union is not a number. *)
Theorem zero_intersection_scores_zero bboxes1 bboxes2 box_format do_ioa m i j b1 b2 :
  _calculate_box_ious bboxes1 bboxes2 box_format do_ioa = Ok m →
  bboxes1 !! i = Some b1 →
  bboxes2 !! j = Some b2 →
  intersection (corner_form box_format b1) (corner_form box_format b2) = 0 →
  do_ioa = true ∨ is_nan (union (corner_form box_format b1) (corner_form box_format b2)) = false →
  entry m i j = Some 0.
Proof.
  intros Hrun H1 H2 Hzero Hmode.
  destruct (calculate_box_ious_entry _ _ _ _ _ _ _ _ _ Hrun H1 H2) as [_ ->].
  f_equal. set (c1 := corner_form box_format b1) in *.
  set (c2 := corner_form box_format b2) in *.
  destruct do_ioa.
  - unfold ioa_entry. rewrite Hzero. destruct (0 <? area c1) eqn:Hpos; [|done].
    by apply zero_div_positive, ltb_zero_true.
  - destruct Hmode as [|Hnan]; [done|]. unfold iou_entry.
    assert (iou_numerator c1 c2 = 0) as ->.
    { unfold iou_numerator. rewrite Hzero.
      by destruct (union c1 c2 <=? 0), (area c2 <=? 0), (area c1 <=? 0). }
    unfold iou_denominator. destruct (union c1 c2 <=? 0) eqn:Hu; [done|].
    by apply zero_div_positive, leb_zero_false.
Qed.

End BoxMore.

(** *** Further runs on the box dataset *)

Section BoxDatasetRuns.

Import Boxes RawSeq BoxDataset.

Local Open Scope float_scope.

Local Abbreviation run_short :=
  (get_raw_seq_data box matrix _load_raw_file_short _calculate_similarities
     "trk" "seq-01").

Lemma similarity_scores_follow_zip_witness :
  ∃ raw_data similarity_scores,
    run_short = Ok raw_data ∧
    raw_data !! "similarity_scores" = Some (VSims similarity_scores) ∧
    length similarity_scores = 1%nat ∧
    ∀ t m, similarity_scores !! t = Some m →
      ∃ g d, [[unit_box; far_box]; [unit_box]] !! t = Some g ∧
             [[unit_box]] !! t = Some d ∧
             _calculate_similarities g d = Ok m.
Proof.
  eexists. 
  assert (run_short = Ok (match run_short with Ok r => r | Raise _ => ∅ end)) as Hrun
    by reflexivity.
  destruct (similarity_scores_follow_zip _load_raw_file_short _calculate_similarities
              "trk" "seq-01" raw_gt_data raw_tracker_data_short
              [[unit_box; far_box]; [unit_box]] [[unit_box]] _
              eq_refl eq_refl eq_refl eq_refl Hrun) as (sims & Hsims & Hlen & Hall).
  exists sims. by split_and!.
Defined.

Lemma returned_record_fields_witness :
  ∃ raw_data,
    run_short = Ok raw_data ∧
    is_Some (raw_data !! "similarity_scores") ∧
    ("tracker_ids" ≠ "similarity_scores" →
     raw_data !! "tracker_ids" = Some (VArrays [[7]]%Z)).
Proof.
  eexists. split; [reflexivity|].
  apply (returned_record_fields _load_raw_file_short _calculate_similarities
           "trk" "seq-01" raw_gt_data raw_tracker_data_short _ "tracker_ids");
    reflexivity.
Defined.

Lemma similarity_error_propagates_witness :
  get_raw_seq_data box matrix _load_raw_file _calculate_similarities_xyxy
    "trk" "seq-01"
  = Raise (Exception "box_format xyxy is not implemented").
Proof.
  apply (similarity_error_propagates _load_raw_file _calculate_similarities_xyxy
           "trk" "seq-01" raw_gt_data raw_tracker_data
           [[unit_box; far_box]; [unit_box]] [[unit_box]; [far_box; unit_box]]
           0%nat [unit_box; far_box] [unit_box]); try reflexivity.
  intros t' g' d' Hlt. lia.
Defined.

Lemma check_unique_ids_passes_iff_witness :
  _check_unique_ids box matrix str_object uneven_timesteps = Ok tt ↔
  ∀ t gt_ids_t tracker_ids_t,
    [[1]; [2; 2]]%Z !! t = Some gt_ids_t → [[5]]%Z !! t = Some tracker_ids_t →
    NoDup gt_ids_t ∧ NoDup tracker_ids_t.
Proof.
  apply (check_unique_ids_passes_iff str_object uneven_timesteps); reflexivity.
Defined.

Lemma duplicate_without_seq_name_witness :
  _check_unique_ids box matrix str_object no_seq_name = Raise (KeyError "seq").
Proof.
  apply (duplicate_without_seq_name str_object no_seq_name
           [[1]; [2; 2]]%Z [[5]; [6]]%Z 1%nat [2; 2]%Z [6]%Z); try reflexivity.
  left. intros Hnodup. apply NoDup_cons in Hnodup as [Hnotin _].
  apply Hnotin. apply list_elem_of_here.
Defined.

Lemma check_after_get_raw_seq_data_witness :
  ∃ raw_data,
    get_raw_seq_data box matrix _load_raw_file _calculate_similarities "trk" "seq-01"
    = Ok raw_data ∧
    _check_unique_ids box matrix str_object raw_data
    = _check_unique_ids box matrix str_object
        (merge box matrix raw_gt_data raw_tracker_data).
Proof.
  eexists. split; [reflexivity|].
  apply (check_after_get_raw_seq_data str_object _load_raw_file _calculate_similarities
           "trk" "seq-01" raw_gt_data raw_tracker_data); reflexivity.
Defined.

Lemma calculate_box_ious_dimensions_witness :
  ∃ m, _calculate_box_ious [unit_box; far_box] [unit_box; far_box; unit_box] "xywh" true
       = Ok m ∧
    shape m = (2%nat, 3%nat) ∧ length (entries m) = 2%nat ∧
    Forall (λ row, length row = 3%nat) (entries m).
Proof.
  eexists. split; [reflexivity|].
  apply (calculate_box_ious_dimensions [unit_box; far_box]
           [unit_box; far_box; unit_box] "xywh" true).
  reflexivity.
Defined.


Lemma zero_intersection_scores_zero_witness :
  ∃ m, _calculate_box_ious [unit_box] [far_box] "xywh" false = Ok m ∧
       entry m 0 0 = Some 0.
Proof.
  eexists. split; [reflexivity|].
  apply (zero_intersection_scores_zero [unit_box] [far_box] "xywh" false _
           0%nat 0%nat unit_box far_box); try reflexivity.
  by right.
Defined.

(** The entry of the overflowing pair is a nan, which is not below zero
    either. *)
Example overflowing_pair_not_below_zero :
  let b1 := {| c0 := 0; c1 := 0; c2 := 0x1p+600; c3 := -0x1p+600 |} in
  let b2 := {| c0 := 0; c1 := 0; c2 := 0x1p+600; c3 := 0x1p+600 |} in
  (iou_entry b1 b2 <? 0) = false ∧ is_nan (iou_entry b1 b2) = true.
Proof. by split. Qed.

End BoxDatasetRuns.
